(** * verify_all_fixes.py: the Playwright verification script

    The script drives a browser through a fixed scenario (theme toggle,
    accordion, keyboard, chart) inside [try / except Exception / finally].
    The browser and the page under test are external: they are an
    arbitrary environment [World] that answers each call by returning or
    by raising.  The script itself is embedded as a program in a small
    monad that threads the environment, logs what was done and carries
    Python exceptions. *)

From Stdlib Require Import List String Ascii Bool Arith Lia DecimalString.
Import ListNotations.
Open Scope string_scope.
Open Scope list_scope.

(** ** Vocabulary of the calls the script makes *)

(** [page.locator(sel)] and [loc.locator(sel)]: locators are lazy values,
    building one performs no call. *)
Inductive Locator : Type :=
| PageLocator (selector : string)
| SubLocator (parent : Locator) (selector : string).

(** Argument of [to_have_class] / [not_to_have_class]: the script passes a
    plain string in some places and [re.compile(...)] in others. *)
Inductive ClassArg : Type :=
| Str (s : string)
| ReCompile (pattern : string).

(** [expect(loc).<assertion>]. *)
Inductive Expectation : Type :=
| NotToHaveClass (c : ClassArg)
| ToHaveClass (c : ClassArg)
| ToBeVisible
| ToHaveCount (n : nat).

Inductive Action : Type :=
| SyncPlaywrightEnter                      (* with sync_playwright() as playwright: *)
| SyncPlaywrightExit
| ChromiumLaunch (headless : bool)         (* playwright.chromium.launch(headless=...) *)
| NewContext                               (* browser.new_context() *)
| NewPage                                  (* context.new_page() *)
| PageOn (event : string)                  (* page.on(event, handler) *)
| Goto (url wait_until : string)           (* page.goto(url, wait_until=...) *)
| Reload (wait_until : string)             (* page.reload(wait_until=...) *)
| Screenshot (path : string)               (* page.screenshot(path=...) *)
| WaitForTimeout (ms : nat)                (* page.wait_for_timeout(ms) *)
| TimeSleep (ms : nat)                     (* time.sleep(ms / 1000) *)
| Click (l : Locator)                      (* l.click() *)
| Focus (l : Locator)                      (* l.focus() *)
| KeyboardPress (key : string)             (* page.keyboard.press(key) *)
| Fill (l : Locator) (value : string)      (* l.fill(value) *)
| Expect (l : Locator) (e : Expectation)   (* expect(l).e *)
| BrowserClose.                            (* browser.close() *)

(** ** Python exceptions *)

Inductive ExcClass : Type :=
| AssertionError
| PlaywrightError
| PlaywrightTimeoutError
| KeyboardInterrupt.

Record PyExc : Type := mkExc { exc_class : ExcClass; exc_msg : string }.

(** [isinstance(e, Exception)]: what [except Exception] catches.
    [KeyboardInterrupt] derives from [BaseException] only. *)
Definition is_Exception (e : PyExc) : bool :=
  match exc_class e with
  | KeyboardInterrupt => false
  | _ => true
  end.

(** ** What a run leaves behind *)

Inductive Event : Type :=
| EvCall (a : Action) (raised : option PyExc)   (* a call and how it ended *)
| EvPrint (line : string)                       (* print(line) *)
| EvConsole (text : string).                    (* print(f"Browser Console: {msg.text}") *)

Inductive Result (A : Type) : Type :=
| Returned (a : A)
| Raised (e : PyExc).
Arguments Returned {A} a.
Arguments Raised {A} e.

(** The environment's answer to one call. *)
Record Response (W : Type) : Type := mkResponse {
  resp_raised : option PyExc;
  resp_console : list string;
  resp_next : W
}.
Arguments mkResponse {W}.
Arguments resp_raised {W}.
Arguments resp_console {W}.
Arguments resp_next {W}.

(** Constants of the script. *)
Definition PORT : nat := 3000.
Definition BASE_URL : string :=
  "http://127.0.0.1:" ++ NilZero.string_of_uint (Nat.to_uint PORT).
Definition NL : string := String (ascii_of_nat 10) EmptyString.

Definition error_png : string := "jules-scratch/verification/error.png".
Definition success_line : string :=
  NL ++ "--- Verification Script Finished Successfully ---".
Definition error_line (e : PyExc) : string := "An error occurred: " ++ exc_msg e.

(** Locators the script binds to local names (lines 24, 25, 61, 65, 117):
    pure values, so they are lifted out of [run]. *)
Definition theme_switcher : Locator := PageLocator "#theme-toggle-btn".
Definition html_element : Locator := PageLocator "html".
Definition salario_liquido_tab : Locator :=
  PageLocator ".sidebar-link[data-calculator='salarioLiquido']".
Definition proventos_accordion_btn : Locator :=
  PageLocator "[data-details-for='salario-liquido-proventos-details']".
Definition chart_container : Locator :=
  PageLocator "#salario-liquido-chart-container".
(** Bound at line 66 and never used. *)
Definition proventos_accordion_content : Locator :=
  PageLocator "#salario-liquido-proventos-details".

Section Runner.

Variable World : Type.
Variable perform : Action -> World -> Response World.

(** Interpreter state: the environment and whether the console handler of
    line 11 has been registered. *)
Record St : Type := mkSt { world : World; console_hooked : bool }.

Record Run (A : Type) : Type := mkRun {
  result : Result A;
  events : list Event;
  final : St
}.
Arguments mkRun {A}.
Arguments result {A}.
Arguments events {A}.
Arguments final {A}.

Definition M (A : Type) : Type := St -> Run A.

Definition ret {A} (a : A) : M A := fun st => mkRun (Returned a) [] st.

Definition bind {A B} (m : M A) (k : A -> M B) : M B :=
  fun st =>
    let r := m st in
    match result r with
    | Returned a =>
        let r' := k a (final r) in
        mkRun (result r') (events r ++ events r') (final r')
    | Raised e => mkRun (Raised e) (events r) (final r)
    end.

Notation "m ;; k" := (bind m (fun _ => k)) (at level 61, right associativity).

(** One call against the environment.  Console messages emitted while the
    call runs are relayed to stdout once the handler is registered. *)
Definition call (a : Action) : M unit :=
  fun st =>
    let r := perform a (world st) in
    let relayed := if console_hooked st then map EvConsole (resp_console r) else [] in
    let st' := mkSt (resp_next r) (console_hooked st) in
    match resp_raised r with
    | None => mkRun (Returned tt) (relayed ++ [EvCall a None]) st'
    | Some e => mkRun (Raised e) (relayed ++ [EvCall a (Some e)]) st'
    end.

Definition print (line : string) : M unit :=
  fun st => mkRun (Returned tt) [EvPrint line] st.

(** [page.on("console", lambda msg: print(...))] *)
Definition page_on_console : M unit :=
  bind (call (PageOn "console"))
       (fun _ st => mkRun (Returned tt) [] (mkSt (world st) true)).

(** [try: body except Exception as e: handler(e)] *)
Definition try_except (body : M unit) (handler : PyExc -> M unit) : M unit :=
  fun st =>
    let r := body st in
    match result r with
    | Returned _ => r
    | Raised e =>
        if is_Exception e then
          let r' := handler e (final r) in
          mkRun (result r') (events r ++ events r') (final r')
        else r
    end.

(** [try: body finally: cleanup].  The cleanup always runs; an exception
    it raises replaces a pending one. *)
Definition try_finally (body : M unit) (cleanup : M unit) : M unit :=
  fun st =>
    let r := body st in
    let c := cleanup (final r) in
    match result c with
    | Returned _ => mkRun (result r) (events r ++ events c) (final c)
    | Raised e => mkRun (Raised e) (events r ++ events c) (final c)
    end.

(** [for _ in range(n): body] *)
Fixpoint for_range (n : nat) (body : M unit) : M unit :=
  match n with
  | O => ret tt
  | S n' => body ;; for_range n' body
  end.

(** Lines 19-125: the body of the [try]. *)
Definition run_body : M unit :=
  call (Goto (BASE_URL ++ "/?notest=true") "networkidle") ;;
  print "--- Verification Script Started ---" ;;

  (* 1. Dark/Light Mode Test Cases *)
  print (NL ++ "[1.1] Testing Dark/Light Mode Toggle...") ;;

  call (Expect html_element (NotToHaveClass (Str "dark"))) ;;
  call (Expect (SubLocator theme_switcher ".sun-icon") ToBeVisible) ;;
  call (Screenshot "jules-scratch/verification/01_light_mode_initial.png") ;;
  print "  - Initial light mode verified." ;;

  call (Click theme_switcher) ;;
  call (WaitForTimeout 500) ;;
  call (Expect html_element (ToHaveClass (Str "dark"))) ;;
  call (Expect (SubLocator theme_switcher ".moon-icon") ToBeVisible) ;;
  call (Screenshot "jules-scratch/verification/02_dark_mode_toggled.png") ;;
  print "  - Toggled to dark mode verified." ;;

  (* 1.2 Persistence Test *)
  print "[1.2] Testing Theme Persistence..." ;;
  call (Reload "networkidle") ;;
  call (WaitForTimeout 500) ;;
  call (Expect html_element (ToHaveClass (Str "dark"))) ;;
  call (Expect (SubLocator theme_switcher ".moon-icon") ToBeVisible) ;;
  call (Screenshot "jules-scratch/verification/03_dark_mode_reloaded.png") ;;
  print "  - Dark mode persists after reload." ;;

  call (Click theme_switcher) ;;
  call (WaitForTimeout 500) ;;
  call (Reload "networkidle") ;;
  call (WaitForTimeout 500) ;;
  call (Expect html_element (NotToHaveClass (Str "dark"))) ;;
  print "  - Light mode persists after reload." ;;

  (* 2. Accordion Animation Test Cases *)
  print (NL ++ "[2.1] Testing Form Accordion Animation...") ;;
  call (Click salario_liquido_tab) ;;
  call (WaitForTimeout 1000) ;;

  call (Expect proventos_accordion_btn (NotToHaveClass (Str "active"))) ;;

  call (Click proventos_accordion_btn) ;;
  call (WaitForTimeout 500) ;;
  call (Expect proventos_accordion_btn (ToHaveClass (ReCompile "active"))) ;;
  call (Screenshot "jules-scratch/verification/04_accordion_open.png") ;;
  print "  - Form accordion opens correctly." ;;

  call (Click proventos_accordion_btn) ;;
  call (WaitForTimeout 500) ;;
  call (Expect proventos_accordion_btn (NotToHaveClass (Str "active"))) ;;
  print "  - Form accordion closes correctly." ;;

  (* 2.2 Rapid Interaction Test *)
  print "[2.2] Stress-testing accordion..." ;;
  for_range 5 (
    call (Click proventos_accordion_btn) ;;
    call (TimeSleep 50)
  ) ;;
  call (WaitForTimeout 500) ;;
  call (Expect proventos_accordion_btn (ToHaveClass (ReCompile "active"))) ;;
  print "  - Accordion stable after rapid interaction." ;;
  call (Click proventos_accordion_btn) ;;
  call (WaitForTimeout 500) ;;

  (* 2.3 Keyboard Navigation Test *)
  print "[2.3] Testing accordion keyboard navigation..." ;;
  call (Focus proventos_accordion_btn) ;;
  call (KeyboardPress "Enter") ;;
  call (WaitForTimeout 500) ;;
  call (Expect proventos_accordion_btn (ToHaveClass (ReCompile "active"))) ;;
  call (Screenshot "jules-scratch/verification/05_accordion_kbd_open.png") ;;
  print "  - Accordion opens with 'Enter' key." ;;

  call (KeyboardPress "Enter") ;;
  call (WaitForTimeout 500) ;;
  call (Expect proventos_accordion_btn (NotToHaveClass (Str "active"))) ;;
  print "  - Accordion closes with 'Enter' key." ;;

  (* 3. Regression Testing *)
  print (NL ++ "[3.1] Verifying SVG Chart Restoration...") ;;
  call (Fill (PageLocator "#salario-bruto-salario-liquido") "5000") ;;
  call (Fill (PageLocator "#desconto-saude-salario-liquido") "100") ;;
  call (WaitForTimeout 500) ;;

  call (Expect (SubLocator chart_container "svg.chart-svg") ToBeVisible) ;;
  call (Expect (SubLocator chart_container ".chart-segment") (ToHaveCount 3)) ;;
  call (Screenshot "jules-scratch/verification/06_svg_chart_restored.png") ;;
  print "  - SVG chart is visible and rendered." ;;

  print "[3.2] Verifying Duplicate ID Fix... SKIPPED" ;;

  print success_line.

(** Lines 127-129: [except Exception as e]. *)
Definition on_error (e : PyExc) : M unit :=
  print (error_line e) ;;
  call (Screenshot error_png).

(** Lines 5-132: [run(playwright)]. *)
Definition run : M unit :=
  call (ChromiumLaunch true) ;;
  call NewContext ;;
  call NewPage ;;
  page_on_console ;;
  try_finally (try_except run_body on_error) (call BrowserClose).

(** Lines 134-135: [with sync_playwright() as playwright: run(playwright)].
    [__exit__] stops the driver and does not swallow exceptions. *)
Definition main : M unit :=
  call SyncPlaywrightEnter ;;
  try_finally run (call SyncPlaywrightExit).

(** Exit status of the interpreter: 0 when the module body completes, 1
    when an exception reaches the top level. *)
Definition exit_code (r : Run unit) : nat :=
  match result r with
  | Returned _ => 0
  | Raised _ => 1
  end.

End Runner.

Arguments mkSt {World}.
Arguments world {World}.
Arguments console_hooked {World}.
Arguments mkRun {World A}.
Arguments result {World A}.
Arguments events {World A}.
Arguments final {World A}.
Arguments ret {World A}.
Arguments bind {World A B}.
Arguments call {World}.
Arguments print {World}.
Arguments page_on_console {World}.
Arguments try_except {World}.
Arguments try_finally {World}.
Arguments for_range {World}.
Arguments run_body {World}.
Arguments on_error {World}.
Arguments run {World}.
Arguments main {World}.
Arguments exit_code {World}.

(** ** Reading a log *)

(** A statement of the script: a call or a print. *)
Inductive Step : Type :=
| SCall (a : Action)
| SPrint (line : string).

Definition step_of (ev : Event) : list Step :=
  match ev with
  | EvCall a _ => [SCall a]
  | EvPrint s => [SPrint s]
  | EvConsole _ => []
  end.

(** The statements a log records, outcomes and relayed console lines
    forgotten. *)
Definition steps_of (evs : list Event) : list Step := flat_map step_of evs.

Definition call_of (ev : Event) : list Action :=
  match ev with
  | EvCall a _ => [a]
  | _ => []
  end.

(** The calls a log records, in order. *)
Definition calls_of (evs : list Event) : list Action := flat_map call_of evs.

Definition is_console (ev : Event) : bool :=
  match ev with
  | EvConsole _ => true
  | _ => false
  end.

(** The log without the relayed browser console lines. *)
Definition skeleton (evs : list Event) : list Event :=
  filter (fun ev => negb (is_console ev)) evs.

Definition is_failure (ev : Event) : bool :=
  match ev with
  | EvCall _ (Some _) => true
  | _ => false
  end.

(** No call of the log raised. *)
Definition no_failure (evs : list Event) : bool :=
  forallb (fun ev => negb (is_failure ev)) evs.

(** Paths of the screenshots that were written: the [page.screenshot]
    calls that returned. *)
Definition artifact_of (ev : Event) : list string :=
  match ev with
  | EvCall (Screenshot p) None => [p]
  | _ => []
  end.

Definition artifacts (evs : list Event) : list string := flat_map artifact_of evs.

Definition error_artifacts (evs : list Event) : nat :=
  count_occ string_dec (artifacts evs) error_png.

(** How often [page.screenshot(path=".../error.png")] was called. *)
Definition is_error_shot (ev : Event) : bool :=
  match ev with
  | EvCall (Screenshot p) _ => String.eqb p error_png
  | _ => false
  end.

Definition error_shots (evs : list Event) : nat :=
  List.length (filter is_error_shot evs).

(** The log entry of a statement that completed. *)
Definition step_ok (s : Step) : Event :=
  match s with
  | SCall a => EvCall a None
  | SPrint l => EvPrint l
  end.

(** ** Environments used to exhibit runs *)

(** Every call returns, the browser console stays silent. *)
Definition always_ok : Action -> unit -> Response unit :=
  fun _ w => mkResponse None [] w.

(** Calls selected by [plan] raise, all others return. *)
Definition failing (plan : Action -> option PyExc) : Action -> unit -> Response unit :=
  fun a w => mkResponse (plan a) [] w.

Definition start : St unit := mkSt tt false.

(** ** The script as a list of statements *)

(** Lines 6-11, before the [try]. *)
Definition setup_steps : list Step :=
  [SCall (ChromiumLaunch true); SCall NewContext; SCall NewPage;
   SCall (PageOn "console")].

(** Lines 19-125 in textual order, the loop of line 86 unrolled: what
    [run_body] logs when nothing raises. *)
Definition body_steps : list Step :=
  Eval vm_compute in steps_of (events (run_body always_ok start)).

Definition body_calls : list Action :=
  Eval vm_compute in calls_of (events (run_body always_ok start)).

(** ** Straight-line programs *)

Section Straight.

Context {World : Type} (perform : Action -> World -> Response World).

Local Notation "m ;; k" := (bind m (fun _ => k)) (at level 61, right associativity).

Definition do_step (s : Step) : M World unit :=
  match s with
  | SCall a => call perform a
  | SPrint l => print l
  end.

(** Statements run one after the other; the first one that raises ends
    the list. *)
Fixpoint exec_steps (l : list Step) : M World unit :=
  match l with
  | [] => ret tt
  | s :: l' => do_step s ;; exec_steps l'
  end.

(** [Performs m l]: the program [m] is the statements [l] in sequence. *)
Inductive Performs : M World unit -> list Step -> Prop :=
| Performs_call a : Performs (call perform a) [SCall a]
| Performs_print s : Performs (print s) [SPrint s]
| Performs_ret : Performs (ret tt) []
| Performs_seq m1 m2 l1 l2 :
    Performs m1 l1 -> Performs m2 l2 -> Performs (m1 ;; m2) (l1 ++ l2).

(** Each call of a log was answered by the environment in the state the
    previous calls left. *)
Fixpoint sequential (w : World) (evs : list Event) : Prop :=
  match evs with
  | [] => True
  | EvCall a r :: rest =>
      resp_raised (perform a w) = r /\ sequential (resp_next (perform a w)) rest
  | _ :: rest => sequential w rest
  end.

(** The environment after the calls of a log. *)
Fixpoint replay (w : World) (evs : list Event) : World :=
  match evs with
  | [] => w
  | EvCall a _ :: rest => replay (resp_next (perform a w)) rest
  | _ :: rest => replay w rest
  end.

Definition Threaded (m : M World unit) : Prop :=
  forall st,
    sequential (world st) (events (m st)) /\
    world (final (m st)) = replay (world st) (events (m st)).

(** The shapes a log of [run] can take, console lines left out, with the
    result of the run. *)
Inductive RunShape : list Event -> Result unit -> Prop :=
| Shape_setup_raised done a rest e :
    setup_steps = done ++ SCall a :: rest ->
    RunShape (map step_ok done ++ [EvCall a (Some e)]) (Raised e)
| Shape_body_passed rc :
    RunShape (map step_ok (setup_steps ++ body_steps) ++ [EvCall BrowserClose rc])
             (match rc with Some e' => Raised e' | None => Returned tt end)
| Shape_step_caught done a rest e rs rc :
    body_steps = done ++ SCall a :: rest ->
    is_Exception e = true ->
    RunShape (map step_ok (setup_steps ++ done) ++
              [EvCall a (Some e); EvPrint (error_line e);
               EvCall (Screenshot error_png) rs; EvCall BrowserClose rc])
             (match rc, rs with
              | Some e', _ => Raised e'
              | None, Some e' => Raised e'
              | None, None => Returned tt
              end)
| Shape_step_uncaught done a rest e rc :
    body_steps = done ++ SCall a :: rest ->
    is_Exception e = false ->
    RunShape (map step_ok (setup_steps ++ done) ++
              [EvCall a (Some e); EvCall BrowserClose rc])
             (Raised (match rc with Some e' => e' | None => e end)).

(** The shapes a log of [main] can take around the log of [run]. *)
Inductive MainShape : list Event -> Result unit -> Prop :=
| Shape_enter_raised e :
    MainShape [EvCall SyncPlaywrightEnter (Some e)] (Raised e)
| Shape_entered evs r rx :
    RunShape evs r ->
    MainShape (EvCall SyncPlaywrightEnter None :: evs ++ [EvCall SyncPlaywrightExit rx])
              (match rx with Some e' => Raised e' | None => r end).

End Straight.

(** ** Views of the scenario used to state its content *)

Definition Locator_eq_dec (a b : Locator) : {a = b} + {a <> b}.
Proof. decide equality; apply string_dec. Defined.

Definition Expectation_eq_dec (a b : Expectation) : {a = b} + {a <> b}.
Proof. repeat decide equality. Defined.

Definition Action_eq_dec (a b : Action) : {a = b} + {a <> b}.
Proof.
  decide equality;
    first [ apply string_dec | apply Nat.eq_dec | apply bool_dec
          | apply Locator_eq_dec | apply Expectation_eq_dec ].
Defined.

Definition Step_eq_dec (a b : Step) : {a = b} + {a <> b}.
Proof. decide equality; [apply Action_eq_dec | apply string_dec]. Defined.

(** Whether a call is one of the statements of the [try] body. *)
Definition in_body_dec (a : Action) :
  {In (SCall a) body_steps} + {~ In (SCall a) body_steps} :=
  in_dec Step_eq_dec (SCall a) body_steps.

Definition same_locator (a b : Locator) : bool :=
  if Locator_eq_dec a b then true else false.

(** Calls that bear on the theme: navigation, reload, a click on the
    theme switch, a class assertion on the root element. *)
Definition theme_relevant (a : Action) : bool :=
  match a with
  | Goto _ _ | Reload _ => true
  | Click l => same_locator l theme_switcher
  | Expect l (NotToHaveClass _) | Expect l (ToHaveClass _) => same_locator l html_element
  | _ => false
  end.

Definition theme_view (calls : list Action) : list Action :=
  filter theme_relevant calls.

(** Activations of the accordion button: a click on it, or Enter pressed
    on the keyboard (the button is focused at line 98). *)
Definition accordion_activation (a : Action) : bool :=
  match a with
  | Click l => same_locator l proventos_accordion_btn
  | KeyboardPress k => String.eqb k "Enter"
  | _ => false
  end.

(** The first assertion on the accordion button made before the next
    activation, if there is one. *)
Fixpoint next_assertion (calls : list Action) : option Expectation :=
  match calls with
  | [] => None
  | a :: rest =>
      if accordion_activation a then None
      else match a with
           | Expect l e =>
               if same_locator l proventos_accordion_btn then Some e
               else next_assertion rest
           | _ => next_assertion rest
           end
  end.

(** Each activation of the accordion with the post-condition the script
    asserts for it. *)
Fixpoint post_conditions (calls : list Action) : list (Action * option Expectation) :=
  match calls with
  | [] => []
  | a :: rest =>
      if accordion_activation a then (a, next_assertion rest) :: post_conditions rest
      else post_conditions rest
  end.

(** Calls that bear on the accordion: its activations and the assertions
    on the button. *)
Definition accordion_relevant (a : Action) : bool :=
  match a with
  | Expect l _ => same_locator l proventos_accordion_btn
  | _ => accordion_activation a
  end.

Definition accordion_view (calls : list Action) : list Action :=
  filter accordion_relevant calls.


(** The assertions among a list of calls. *)
Definition expectation_of (a : Action) : list (Locator * Expectation) :=
  match a with
  | Expect l e => [(l, e)]
  | _ => []
  end.

Definition expectations (calls : list Action) : list (Locator * Expectation) :=
  flat_map expectation_of calls.

(** The calls from position [from] up to, not including, position [to]. *)
Definition segment {A} (from to : nat) (l : list A) : list A :=
  firstn (to - from) (skipn from l).

(** ** Fault plans *)

Definition connection_refused : PyExc :=
  mkExc PlaywrightError "net::ERR_CONNECTION_REFUSED".
Definition target_closed : PyExc :=
  mkExc PlaywrightError "Target page, context or browser has been closed".
Definition launch_failed : PyExc :=
  mkExc PlaywrightError "Executable doesn't exist".
Definition ctrl_c : PyExc := mkExc KeyboardInterrupt "".

(** Nothing listens on the port: [page.goto] raises, the rest works. *)
Definition server_down (a : Action) : option PyExc :=
  match a with
  | Goto _ _ => Some connection_refused
  | _ => None
  end.

(** The page dies during the first navigation: [page.goto] raises, and so
    does every later [page.screenshot]. *)
Definition page_crashed (a : Action) : option PyExc :=
  match a with
  | Goto _ _ | Screenshot _ => Some target_closed
  | _ => None
  end.

(** The user interrupts the script during [time.sleep]. *)
Definition interrupted (a : Action) : option PyExc :=
  match a with
  | TimeSleep _ => Some ctrl_c
  | _ => None
  end.

(** The browser binary cannot be started. *)
Definition no_browser (a : Action) : option PyExc :=
  match a with
  | ChromiumLaunch _ => Some launch_failed
  | _ => None
  end.

(** The browser starts but [browser.new_context()] raises. *)
Definition no_context (a : Action) : option PyExc :=
  match a with
  | NewContext => Some target_closed
  | _ => None
  end.

(** ** Further views of a log *)

(** The browser console lines a log relays, in order. *)
Definition console_line (ev : Event) : list string :=
  match ev with
  | EvConsole t => [t]
  | _ => []
  end.

Definition console_of (evs : list Event) : list string := flat_map console_line evs.

(** The console messages the environment emits while it answers a list of
    calls one after the other, starting in [w]. *)
Fixpoint emitted {World} (perform : Action -> World -> Response World)
    (w : World) (calls : list Action) : list string :=
  match calls with
  | [] => []
  | a :: rest =>
      resp_console (perform a w) ++ emitted perform (resp_next (perform a w)) rest
  end.

(** The environment after a list of calls. *)
Fixpoint replay_calls {World} (perform : Action -> World -> Response World)
    (w : World) (calls : list Action) : World :=
  match calls with
  | [] => w
  | a :: rest => replay_calls perform (resp_next (perform a w)) rest
  end.

(** The screenshots of lines 30, 38, 47, 75, 102 and 120. *)
Definition numbered_screenshots : list string :=
  ["jules-scratch/verification/01_light_mode_initial.png";
   "jules-scratch/verification/02_dark_mode_toggled.png";
   "jules-scratch/verification/03_dark_mode_reloaded.png";
   "jules-scratch/verification/04_accordion_open.png";
   "jules-scratch/verification/05_accordion_kbd_open.png";
   "jules-scratch/verification/06_svg_chart_restored.png"].

(** Calls after which the page may still be animating or recomputing. *)
Definition changes_page (a : Action) : bool :=
  match a with
  | Click _ | KeyboardPress _ | Fill _ _ | Reload _ => true
  | _ => false
  end.

(** Whether the page changed since the last [wait_for_timeout] of at
    least 500 ms. *)
Definition unsettled_after (unsettled : bool) (a : Action) : bool :=
  match a with
  | WaitForTimeout ms => if Nat.leb 500 ms then false else unsettled
  | _ => unsettled || changes_page a
  end.

(** No assertion is made while the page is unsettled. *)
Fixpoint settled_from (unsettled : bool) (calls : list Action) : bool :=
  match calls with
  | [] => true
  | a :: rest =>
      match a with
      | Expect _ _ => negb unsettled
      | _ => true
      end && settled_from (unsettled_after unsettled a) rest
  end.

(** [Relays m]: started with the console handler registered, [m] keeps
    it registered and prints exactly the console messages the environment
    emits during its calls, in order. *)
Definition Relays {World} (perform : Action -> World -> Response World)
    (m : M World unit) : Prop :=
  forall st, console_hooked st = true ->
    console_hooked (final (m st)) = true /\
    world (final (m st)) =
      replay_calls perform (world st) (calls_of (events (m st))) /\
    console_of (events (m st)) =
      emitted perform (world st) (calls_of (events (m st))).

(** [browser.close()] raises, everything else returns. *)
Definition close_fails (a : Action) : option PyExc :=
  match a with
  | BrowserClose => Some target_closed
  | _ => None
  end.

(** Every call returns and the page logs one console line during it. *)
Definition chatty : Action -> unit -> Response unit :=
  fun _ w => mkResponse None ["tick"] w.

(** Lines 19-125 as they are written, one entry per statement in textual
    order with its line number, the two statements of the loop of lines
    86-88 written out five times. *)
Definition declared_steps : list Step :=
  [
   SCall (Goto (BASE_URL ++ "/?notest=true") "networkidle");   (* 19 *)
   SPrint "--- Verification Script Started ---";   (* 20 *)
   SPrint (NL ++ "[1.1] Testing Dark/Light Mode Toggle...");   (* 23 *)
   SCall (Expect html_element (NotToHaveClass (Str "dark")));   (* 28 *)
   SCall (Expect (SubLocator theme_switcher ".sun-icon") ToBeVisible);   (* 29 *)
   SCall (Screenshot "jules-scratch/verification/01_light_mode_initial.png");   (* 30 *)
   SPrint "  - Initial light mode verified.";   (* 31 *)
   SCall (Click theme_switcher);   (* 34 *)
   SCall (WaitForTimeout 500);   (* 35 *)
   SCall (Expect html_element (ToHaveClass (Str "dark")));   (* 36 *)
   SCall (Expect (SubLocator theme_switcher ".moon-icon") ToBeVisible);   (* 37 *)
   SCall (Screenshot "jules-scratch/verification/02_dark_mode_toggled.png");   (* 38 *)
   SPrint "  - Toggled to dark mode verified.";   (* 39 *)
   SPrint "[1.2] Testing Theme Persistence...";   (* 42 *)
   SCall (Reload "networkidle");   (* 43 *)
   SCall (WaitForTimeout 500);   (* 44 *)
   SCall (Expect html_element (ToHaveClass (Str "dark")));   (* 45 *)
   SCall (Expect (SubLocator theme_switcher ".moon-icon") ToBeVisible);   (* 46 *)
   SCall (Screenshot "jules-scratch/verification/03_dark_mode_reloaded.png");   (* 47 *)
   SPrint "  - Dark mode persists after reload.";   (* 48 *)
   SCall (Click theme_switcher);   (* 51 *)
   SCall (WaitForTimeout 500);   (* 52 *)
   SCall (Reload "networkidle");   (* 53 *)
   SCall (WaitForTimeout 500);   (* 54 *)
   SCall (Expect html_element (NotToHaveClass (Str "dark")));   (* 55 *)
   SPrint "  - Light mode persists after reload.";   (* 56 *)
   SPrint (NL ++ "[2.1] Testing Form Accordion Animation...");   (* 59 *)
   SCall (Click salario_liquido_tab);   (* 62 *)
   SCall (WaitForTimeout 1000);   (* 63 *)
   SCall (Expect proventos_accordion_btn (NotToHaveClass (Str "active")));   (* 69 *)
   SCall (Click proventos_accordion_btn);   (* 72 *)
   SCall (WaitForTimeout 500);   (* 73 *)
   SCall (Expect proventos_accordion_btn (ToHaveClass (ReCompile "active")));   (* 74 *)
   SCall (Screenshot "jules-scratch/verification/04_accordion_open.png");   (* 75 *)
   SPrint "  - Form accordion opens correctly.";   (* 76 *)
   SCall (Click proventos_accordion_btn);   (* 79 *)
   SCall (WaitForTimeout 500);   (* 80 *)
   SCall (Expect proventos_accordion_btn (NotToHaveClass (Str "active")));   (* 81 *)
   SPrint "  - Form accordion closes correctly.";   (* 82 *)
   SPrint "[2.2] Stress-testing accordion...";   (* 85 *)
   SCall (Click proventos_accordion_btn);   (* 87 *)
   SCall (TimeSleep 50);   (* 88 *)
   SCall (Click proventos_accordion_btn);   (* 87 *)
   SCall (TimeSleep 50);   (* 88 *)
   SCall (Click proventos_accordion_btn);   (* 87 *)
   SCall (TimeSleep 50);   (* 88 *)
   SCall (Click proventos_accordion_btn);   (* 87 *)
   SCall (TimeSleep 50);   (* 88 *)
   SCall (Click proventos_accordion_btn);   (* 87 *)
   SCall (TimeSleep 50);   (* 88 *)
   SCall (WaitForTimeout 500);   (* 89 *)
   SCall (Expect proventos_accordion_btn (ToHaveClass (ReCompile "active")));   (* 91 *)
   SPrint "  - Accordion stable after rapid interaction.";   (* 92 *)
   SCall (Click proventos_accordion_btn);   (* 93 *)
   SCall (WaitForTimeout 500);   (* 94 *)
   SPrint "[2.3] Testing accordion keyboard navigation...";   (* 97 *)
   SCall (Focus proventos_accordion_btn);   (* 98 *)
   SCall (KeyboardPress "Enter");   (* 99 *)
   SCall (WaitForTimeout 500);   (* 100 *)
   SCall (Expect proventos_accordion_btn (ToHaveClass (ReCompile "active")));   (* 101 *)
   SCall (Screenshot "jules-scratch/verification/05_accordion_kbd_open.png");   (* 102 *)
   SPrint "  - Accordion opens with 'Enter' key.";   (* 103 *)
   SCall (KeyboardPress "Enter");   (* 105 *)
   SCall (WaitForTimeout 500);   (* 106 *)
   SCall (Expect proventos_accordion_btn (NotToHaveClass (Str "active")));   (* 107 *)
   SPrint "  - Accordion closes with 'Enter' key.";   (* 108 *)
   SPrint (NL ++ "[3.1] Verifying SVG Chart Restoration...");   (* 111 *)
   SCall (Fill (PageLocator "#salario-bruto-salario-liquido") "5000");   (* 113 *)
   SCall (Fill (PageLocator "#desconto-saude-salario-liquido") "100");   (* 114 *)
   SCall (WaitForTimeout 500);   (* 115 *)
   SCall (Expect (SubLocator chart_container "svg.chart-svg") ToBeVisible);   (* 118 *)
   SCall (Expect (SubLocator chart_container ".chart-segment") (ToHaveCount 3));   (* 119 *)
   SCall (Screenshot "jules-scratch/verification/06_svg_chart_restored.png");   (* 120 *)
   SPrint "  - SVG chart is visible and rendered.";   (* 121 *)
   SPrint "[3.2] Verifying Duplicate ID Fix... SKIPPED";   (* 123 *)
   SPrint success_line   (* 125 *)
  ].




(** State of an accordion button: whether it carries the class "active",
    and how many clicks and key presses it has received. *)
Record Accordion : Type := mkAccordion {
  acc_open : bool;
  acc_clicks : nat;
  acc_presses : nat
}.

Definition assertion_failed : PyExc :=
  mkExc AssertionError "Locator expected to have class".

(** A page whose accordion swallows the eighth click it receives and whose
    keyboard handler keeps its own count: an odd Enter press opens, an
    even one closes.  Assertions on the button return exactly when they
    hold of the button's class; every other call returns. *)
Definition sticky_accordion (a : Action) (p : Accordion) : Response Accordion :=
  match a with
  | Click l =>
      if same_locator l proventos_accordion_btn then
        mkResponse None []
          (mkAccordion (if Nat.eqb (acc_clicks p) 7 then acc_open p
                        else negb (acc_open p))
                       (S (acc_clicks p)) (acc_presses p))
      else mkResponse None [] p
  | KeyboardPress _ =>
      mkResponse None []
        (mkAccordion (Nat.even (acc_presses p)) (acc_clicks p) (S (acc_presses p)))
  | Expect l (ToHaveClass _) =>
      if same_locator l proventos_accordion_btn && negb (acc_open p)
      then mkResponse (Some assertion_failed) [] p
      else mkResponse None [] p
  | Expect l (NotToHaveClass _) =>
      if same_locator l proventos_accordion_btn && acc_open p
      then mkResponse (Some assertion_failed) [] p
      else mkResponse None [] p
  | _ => mkResponse None [] p
  end.

(** * Facts about logs *)

(** The statements [run_body] performs when nothing raises are the
    declared ones, in the declared order. *)
Lemma body_steps_declared : body_steps = declared_steps.
Proof. vm_compute. reflexivity. Qed.


Lemma skeleton_app l1 l2 : skeleton (l1 ++ l2) = skeleton l1 ++ skeleton l2.
Proof. apply filter_app. Qed.

Lemma skeleton_relayed (msgs : list string) : skeleton (map EvConsole msgs) = [].
Proof. induction msgs; simpl; auto. Qed.

Lemma skeleton_step_ok l : skeleton (map step_ok l) = map step_ok l.
Proof. induction l as [|[a|s] l IH]; simpl; unfold skeleton in *; congruence. Qed.

Lemma calls_of_app l1 l2 : calls_of (l1 ++ l2) = calls_of l1 ++ calls_of l2.
Proof. apply flat_map_app. Qed.

Lemma steps_of_app l1 l2 : steps_of (l1 ++ l2) = steps_of l1 ++ steps_of l2.
Proof. apply flat_map_app. Qed.

Lemma calls_of_skeleton evs : calls_of (skeleton evs) = calls_of evs.
Proof. induction evs as [|[a raised|s|t] evs IH]; simpl; unfold skeleton in *; congruence. Qed.

Lemma steps_of_skeleton evs : steps_of (skeleton evs) = steps_of evs.
Proof. induction evs as [|[a raised|s|t] evs IH]; simpl; unfold skeleton in *; congruence. Qed.

Lemma steps_of_step_ok l : steps_of (map step_ok l) = l.
Proof. induction l as [|[a|s] l IH]; simpl; congruence. Qed.

Lemma no_failure_app l1 l2 : no_failure (l1 ++ l2) = no_failure l1 && no_failure l2.
Proof. apply forallb_app. Qed.

Lemma no_failure_skeleton evs : no_failure (skeleton evs) = no_failure evs.
Proof. induction evs as [|[a raised|s|t] evs IH]; simpl; unfold skeleton in *; congruence. Qed.

Lemma no_failure_step_ok l : no_failure (map step_ok l) = true.
Proof. induction l as [|[a|s] l IH]; simpl; auto. Qed.

Lemma in_skeleton ev evs :
  In ev (skeleton evs) <-> In ev evs /\ is_console ev = false.
Proof.
  unfold skeleton. rewrite filter_In.
  destruct (is_console ev); simpl; intuition congruence.
Qed.

Lemma failed_call_in_skeleton a e evs :
  In (EvCall a (Some e)) (skeleton evs) <-> In (EvCall a (Some e)) evs.
Proof. rewrite in_skeleton. simpl. tauto. Qed.

Lemma print_in_skeleton s evs :
  In (EvPrint s) (skeleton evs) <-> In (EvPrint s) evs.
Proof. rewrite in_skeleton. simpl. tauto. Qed.

Lemma failed_call_not_step_ok a e l : ~ In (EvCall a (Some e)) (map step_ok l).
Proof.
  intros H. apply in_map_iff in H. destruct H as [[b|s] [H _]]; discriminate.
Qed.

Lemma artifacts_app l1 l2 : artifacts (l1 ++ l2) = artifacts l1 ++ artifacts l2.
Proof. apply flat_map_app. Qed.

Lemma artifacts_skeleton evs : artifacts (skeleton evs) = artifacts evs.
Proof. induction evs as [|[a raised|s|t] evs IH]; simpl; unfold skeleton in *; congruence. Qed.

Lemma error_shots_skeleton evs : error_shots (skeleton evs) = error_shots evs.
Proof.
  unfold error_shots, skeleton. f_equal.
  induction evs as [|[a raised|s|t] evs IH]; simpl; try assumption.
  - reflexivity.
  - rewrite IH. reflexivity.
Qed.

Lemma error_shots_app l1 l2 : error_shots (l1 ++ l2) = error_shots l1 + error_shots l2.
Proof. unfold error_shots. rewrite filter_app, length_app. reflexivity. Qed.

(** A statement of the script proper is never the error screenshot. *)
Lemma error_shots_body_prefix done rest :
  body_steps = done ++ rest -> error_shots (map step_ok done) = 0.
Proof.
  intros H.
  assert (E : error_shots (map step_ok body_steps) = 0) by (vm_compute; reflexivity).
  rewrite H, map_app, error_shots_app in E. lia.
Qed.

Lemma artifacts_body_prefix done rest :
  body_steps = done ++ rest ->
  count_occ string_dec (artifacts (map step_ok done)) error_png = 0.
Proof.
  intros H.
  assert (E : count_occ string_dec (artifacts (map step_ok body_steps)) error_png = 0)
    by (vm_compute; reflexivity).
  rewrite H, map_app, artifacts_app, count_occ_app in E. lia.
Qed.

(** The statements before the [try] do not occur inside it. *)
Lemma setup_not_in_body a :
  In (SCall a) setup_steps -> ~ In (SCall a) body_steps.
Proof.
  intros [H|[H|[H|[H|[]]]]]; injection H as <-;
    match goal with |- ~ In (SCall ?x) _ =>
      destruct (in_body_dec x) as [i|n]; [exfalso; revert i; vm_compute|exact n]
    end; intuition discriminate.
Qed.

Lemma not_in_body_by_computation a :
  (if in_body_dec a then true else false) = false -> ~ In (SCall a) body_steps.
Proof. destruct (in_body_dec a); [discriminate | auto]. Qed.

(** The error screenshot, [browser.close()] and the two ends of the
    [with] block are not statements of the [try] body. *)
Lemma error_shot_not_in_body : ~ In (SCall (Screenshot error_png)) body_steps.
Proof. apply not_in_body_by_computation. vm_compute. reflexivity. Qed.

Lemma close_not_in_body : ~ In (SCall BrowserClose) body_steps.
Proof. apply not_in_body_by_computation. vm_compute. reflexivity. Qed.

Lemma enter_not_in_body : ~ In (SCall SyncPlaywrightEnter) body_steps.
Proof. apply not_in_body_by_computation. vm_compute. reflexivity. Qed.

Lemma exit_not_in_body : ~ In (SCall SyncPlaywrightExit) body_steps.
Proof. apply not_in_body_by_computation. vm_compute. reflexivity. Qed.

Lemma close_not_in_setup : ~ In (SCall BrowserClose) setup_steps.
Proof. simpl. intuition discriminate. Qed.

Lemma in_body_split done a rest :
  body_steps = done ++ SCall a :: rest -> In (SCall a) body_steps.
Proof. intros ->. apply in_elt. Qed.

Lemma in_done_in_body done a rest s :
  body_steps = done ++ SCall a :: rest -> In s done -> In s body_steps.
Proof. intros -> H. apply in_or_app. auto. Qed.

(** The success line is the last statement of the body: no statement
    that can raise comes after it. *)
Lemma success_line_not_before done a rest :
  body_steps = done ++ SCall a :: rest -> ~ In (SPrint success_line) done.
Proof.
  intros L H.
  assert (I : exists init, body_steps = init ++ [SPrint success_line] /\
                           ~ In (SPrint success_line) init).
  { exists (removelast body_steps). split.
    - vm_compute. reflexivity.
    - destruct (in_dec Step_eq_dec (SPrint success_line) (removelast body_steps)) as [i|n] eqn:E;
        [vm_compute in E; discriminate | exact n]. }
  destruct I as (init & I & N).
  destruct (exists_last (l := SCall a :: rest)) as (l' & x & X); [discriminate|].
  rewrite X, app_assoc, I in L.
  apply app_inj_tail in L. destruct L as [L _].
  apply N. rewrite L. apply in_or_app. auto.
Qed.

Lemma firstn_length_app {A} (p q : list A) : firstn (List.length p) (p ++ q) = p.
Proof. induction p; simpl; congruence. Qed.

(** A log of [run] belongs to a run that returned exactly when its only
    failed call, if any, is a step of the [try] body that raised an
    [Exception]. *)
Lemma run_shape_returns evs r :
  RunShape evs r ->
  (r = Returned tt <->
   forall a e, In (EvCall a (Some e)) evs ->
               In (SCall a) body_steps /\ is_Exception e = true).
Proof.
  intros Sh.
  destruct Sh as [done a0 rest e0 L|rc|done a0 rest e0 rs rc L Ex|done a0 rest e0 rc L Ex].
  - split; [discriminate|]. intros H. exfalso.
    destruct (H a0 e0) as [B _].
    + apply in_or_app. right. left. reflexivity.
    + apply (setup_not_in_body a0); auto. rewrite L. apply in_elt.
  - destruct rc as [e'|].
    + split; [discriminate|]. intros H. exfalso.
      destruct (H BrowserClose e') as [B _].
      * apply in_or_app. right. left. reflexivity.
      * exact (close_not_in_body B).
    + split; [|reflexivity]. intros _ a e H. exfalso.
      apply in_app_or in H. destruct H as [H|[H|[]]]; [|discriminate].
      exact (failed_call_not_step_ok _ _ _ H).
  - destruct rc as [e'|]; [|destruct rs as [e'|]].
    + split; [discriminate|]. intros H. exfalso.
      destruct (H BrowserClose e') as [B _].
      * apply in_or_app. right. simpl. auto.
      * exact (close_not_in_body B).
    + split; [discriminate|]. intros H. exfalso.
      destruct (H (Screenshot error_png) e') as [B _].
      * apply in_or_app. right. simpl. auto.
      * exact (error_shot_not_in_body B).
    + split; [|reflexivity]. intros _ a e H.
      apply in_app_or in H. destruct H as [H|H].
      * exfalso. exact (failed_call_not_step_ok _ _ _ H).
      * destruct H as [H|[H|[H|[H|[]]]]]; try discriminate.
        injection H as <- <-. split; auto.
        exact (in_body_split done a0 rest L).
  - split; [discriminate|]. intros H. exfalso.
    destruct (H a0 e0) as [_ B].
    + apply in_or_app. right. simpl. auto.
    + congruence.
Qed.

Lemma main_shape_returns evs r :
  MainShape evs r ->
  (r = Returned tt <->
   forall a e, In (EvCall a (Some e)) evs ->
               In (SCall a) body_steps /\ is_Exception e = true).
Proof.
  intros Sh. destruct Sh as [e0|evs r rx Sh].
  - split; [discriminate|]. intros H. exfalso.
    destruct (H SyncPlaywrightEnter e0) as [B _]; [left; reflexivity|].
    exact (enter_not_in_body B).
  - pose proof (run_shape_returns evs r Sh) as IH.
    destruct rx as [e'|].
    + split; [discriminate|]. intros H. exfalso.
      destruct (H SyncPlaywrightExit e') as [B _].
      * right. apply in_or_app. right. left. reflexivity.
      * exact (exit_not_in_body B).
    + rewrite IH. split; intros H a e Hin.
      * destruct Hin as [Hin|Hin]; [discriminate|].
        apply in_app_or in Hin. destruct Hin as [Hin|[Hin|[]]]; [|discriminate].
        apply H; assumption.
      * apply H. right. apply in_or_app. auto.
Qed.

Lemma error_shot_not_in_setup : ~ In (SCall (Screenshot error_png)) setup_steps.
Proof. simpl. intuition discriminate. Qed.

(** A log of [run] in which a call of lines 6-11 raised: the run ended
    there with that exception and [browser.close()] was not called. *)
Lemma run_shape_setup_raised evs r a e :
  RunShape evs r ->
  In (EvCall a (Some e)) evs -> In (SCall a) setup_steps ->
  r = Raised e /\ forall rc, ~ In (EvCall BrowserClose rc) evs.
Proof.
  intros Sh H Hs.
  destruct Sh as [done a0 rest e0 L|rc|done a0 rest e0 rs rc L Ex|done a0 rest e0 rc L Ex];
    apply in_app_or in H; destruct H as [H|H];
    try (exfalso; exact (failed_call_not_step_ok _ _ _ H)).
  - destruct H as [H|[]]. injection H as <- <-. split; [reflexivity|].
    intros rc K. apply in_app_or in K. destruct K as [K|[K|[]]].
    + apply in_map_iff in K. destruct K as ([b|line] & E & K); [|discriminate].
      injection E as -> _. apply close_not_in_setup. rewrite L.
      apply in_or_app. left. exact K.
    + injection K as -> _. exact (close_not_in_setup Hs).
  - exfalso. destruct H as [H|[]]. injection H as <- _.
    exact (close_not_in_setup Hs).
  - exfalso. destruct H as [H|[H|[H|[H|[]]]]]; try discriminate.
    + injection H as <- _.
      exact (setup_not_in_body a0 Hs (in_body_split done a0 rest L)).
    + injection H as <- _. exact (error_shot_not_in_setup Hs).
    + injection H as <- _. exact (close_not_in_setup Hs).
  - exfalso. destruct H as [H|[H|[]]].
    + injection H as <- _.
      exact (setup_not_in_body a0 Hs (in_body_split done a0 rest L)).
    + injection H as <- _. exact (close_not_in_setup Hs).
Qed.

(** A log of [run] in which a call raised that no handler covers: the run
    ended by raising, and what it raised is that exception unless
    [browser.close()] raised after it. *)
Lemma run_shape_escapes evs r a e :
  RunShape evs r ->
  In (EvCall a (Some e)) evs ->
  (In (SCall a) setup_steps \/ a = Screenshot error_png \/ a = BrowserClose \/
   (In (SCall a) body_steps /\ is_Exception e = false)) ->
  exists e', r = Raised e' /\ (e' = e \/ In (EvCall BrowserClose (Some e')) evs).
Proof.
  intros Sh H O.
  destruct Sh as [done a0 rest e0 L|rc|done a0 rest e0 rs rc L Ex|done a0 rest e0 rc L Ex].
  - apply in_app_or in H. destruct H as [H|[H|[]]].
    + exfalso. exact (failed_call_not_step_ok _ _ _ H).
    + injection H as <- <-. exists e0. auto.
  - apply in_app_or in H. destruct H as [H|[H|[]]].
    + exfalso. exact (failed_call_not_step_ok _ _ _ H).
    + injection H as <- ->. exists e. auto.
  - assert (B : In (SCall a0) body_steps) by exact (in_body_split done a0 rest L).
    assert (C : forall x, rc = Some x ->
                In (EvCall BrowserClose (Some x))
                   (map step_ok (setup_steps ++ done) ++
                    [EvCall a0 (Some e0); EvPrint (error_line e0);
                     EvCall (Screenshot error_png) rs; EvCall BrowserClose rc]))
      by (intros x ->; apply in_or_app; right; simpl; auto).
    apply in_app_or in H. destruct H as [H|H].
    + exfalso. exact (failed_call_not_step_ok _ _ _ H).
    + destruct H as [H|[H|[H|[H|[]]]]]; try discriminate.
      * exfalso. injection H as <- <-.
        destruct O as [O|[O|[O|[_ O]]]].
        -- exact (setup_not_in_body a0 O B).
        -- rewrite O in B. exact (error_shot_not_in_body B).
        -- rewrite O in B. exact (close_not_in_body B).
        -- congruence.
      * injection H as _ ->. destruct rc as [x|].
        -- exists x. split; [reflexivity|]. right. apply C. reflexivity.
        -- exists e. auto.
      * injection H as _ ->. exists e. auto.
  - assert (C : forall x, rc = Some x ->
                In (EvCall BrowserClose (Some x))
                   (map step_ok (setup_steps ++ done) ++
                    [EvCall a0 (Some e0); EvCall BrowserClose rc]))
      by (intros x ->; apply in_or_app; right; simpl; auto).
    apply in_app_or in H. destruct H as [H|H].
    + exfalso. exact (failed_call_not_step_ok _ _ _ H).
    + destruct H as [H|[H|[]]].
      * injection H as _ <-. destruct rc as [x|].
        -- exists x. split; [reflexivity|]. right. apply C. reflexivity.
        -- exists e0. auto.
      * injection H as _ ->. exists e. auto.
Qed.

(** * Facts about the runner, for every environment *)

Section Facts.

Context {World : Type} (perform : Action -> World -> Response World).

Local Notation "m ;; k" := (bind m (fun _ => k)) (at level 61, right associativity).

Lemma run_eta (r : Run World unit) :
  mkRun (result r) (events r) (final r) = r.
Proof. destruct r; reflexivity. Qed.

Lemma bind_ret_l (k : M World unit) st : (ret tt ;; k) st = k st.
Proof. unfold bind, ret; simpl. apply run_eta. Qed.

Lemma bind_ret_r (m : M World unit) st : (m ;; ret tt) st = m st.
Proof.
  unfold bind, ret. destruct (m st) as [[[]|e] evs st']; simpl;
    rewrite ?app_nil_r; reflexivity.
Qed.

Lemma bind_assoc (m1 m2 m3 : M World unit) st :
  ((m1 ;; m2) ;; m3) st = (m1 ;; (m2 ;; m3)) st.
Proof.
  unfold bind. destruct (m1 st) as [[[]|e] evs1 st1]; simpl; auto.
  destruct (m2 st1) as [[[]|e] evs2 st2]; simpl; auto.
  rewrite app_assoc. reflexivity.
Qed.

Lemma bind_ext (m m' k k' : M World unit) :
  (forall st, m st = m' st) -> (forall st, k st = k' st) ->
  forall st, (m ;; k) st = (m' ;; k') st.
Proof.
  intros Hm Hk st. unfold bind. rewrite Hm.
  destruct (result (m' st)); auto. rewrite Hk. reflexivity.
Qed.

Lemma exec_steps_app l1 l2 st :
  exec_steps perform (l1 ++ l2) st =
  (exec_steps perform l1 ;; exec_steps perform l2) st.
Proof.
  revert st. induction l1 as [|s l1 IH]; intros st; simpl.
  - symmetry. apply bind_ret_l.
  - rewrite bind_assoc. apply bind_ext; auto.
Qed.

(** A straight-line program runs as its list of statements. *)
Lemma Performs_exec m l :
  Performs perform m l -> forall st, m st = exec_steps perform l st.
Proof.
  induction 1 as [a|s| |m1 m2 l1 l2 _ IH1 _ IH2]; intros st; simpl.
  - symmetry. apply bind_ret_r.
  - symmetry. apply bind_ret_r.
  - reflexivity.
  - rewrite exec_steps_app. apply bind_ext; auto.
Qed.

Lemma Performs_for_range n m l :
  Performs perform m l ->
  Performs perform (for_range n m) (List.concat (repeat l n)).
Proof.
  intros H. induction n as [|n IH]; simpl; constructor; assumption.
Qed.

(** The body of the [try] is straight-line: its statements are
    [body_steps], whatever the environment. *)
Lemma run_body_performs : Performs perform (run_body perform) body_steps.
Proof.
  assert (E : forall m l l', Performs perform m l -> l = l' -> Performs perform m l')
    by (intros; subst; assumption).
  unfold run_body.
  eapply E.
  - repeat match goal with
           | |- Performs _ (bind _ _) _ => eapply Performs_seq
           | |- Performs _ (call _ _) _ => apply Performs_call
           | |- Performs _ (print _) _ => apply Performs_print
           | |- Performs _ (for_range _ _) _ => eapply Performs_for_range
           end.
  - vm_compute. reflexivity.
Qed.

Lemma run_body_unrolled st :
  run_body perform st = exec_steps perform body_steps st.
Proof. apply Performs_exec, run_body_performs. Qed.

(** ** One call *)

Lemma call_result a st :
  result (call perform a st) =
  match resp_raised (perform a (world st)) with
  | None => Returned tt
  | Some e => Raised e
  end.
Proof. unfold call. destruct (resp_raised _); reflexivity. Qed.

Lemma call_skeleton a st :
  skeleton (events (call perform a st)) =
  [EvCall a (resp_raised (perform a (world st)))].
Proof.
  unfold call. destruct (resp_raised _); simpl;
    rewrite skeleton_app; destruct (console_hooked st);
    rewrite ?skeleton_relayed; reflexivity.
Qed.

Lemma call_final a st :
  final (call perform a st) =
  mkSt (resp_next (perform a (world st))) (console_hooked st).
Proof. unfold call. destruct (resp_raised _); reflexivity. Qed.

(** ** A list of statements *)

Lemma exec_steps_cases l : forall st,
  let r := exec_steps perform l st in
  (result r = Returned tt /\ skeleton (events r) = map step_ok l) \/
  (exists done a rest e,
      l = done ++ SCall a :: rest /\
      result r = Raised e /\
      skeleton (events r) = map step_ok done ++ [EvCall a (Some e)]).
Proof.
  induction l as [|s l IH]; intros st; simpl.
  - left. split; reflexivity.
  - unfold bind.
    destruct s as [a|line]; simpl.
    + pose proof (call_result a st) as Hr.
      pose proof (call_skeleton a st) as Hs.
      destruct (resp_raised (perform a (world st))) as [e|].
      * right. exists [], a, l, e. rewrite Hr. simpl. auto.
      * rewrite Hr. simpl. rewrite skeleton_app, Hs.
        destruct (IH (final (call perform a st))) as [[R S]|(done & b & rest & e & L & R & S)].
        -- left. rewrite R, S. auto.
        -- right. exists (SCall a :: done), b, rest, e.
           rewrite R, S, L. auto.
    + destruct (IH st) as [[R S]|(done & b & rest & e & L & R & S)].
      * left. rewrite R, S. auto.
      * right. exists (SPrint line :: done), b, rest, e.
        rewrite R, S, L. auto.
Qed.

(** ** The combinators around a call *)

Lemma seq_call a (k : M World unit) st :
  let r := (call perform a ;; k) st in
  match resp_raised (perform a (world st)) with
  | Some e => result r = Raised e /\ skeleton (events r) = [EvCall a (Some e)]
  | None =>
      let st' := mkSt (resp_next (perform a (world st))) (console_hooked st) in
      result r = result (k st') /\
      skeleton (events r) = EvCall a None :: skeleton (events (k st'))
  end.
Proof.
  unfold bind. simpl.
  pose proof (call_result a st) as Hr.
  pose proof (call_skeleton a st) as Hs.
  pose proof (call_final a st) as Hf.
  destruct (resp_raised (perform a (world st))) as [e|]; rewrite Hr; simpl.
  - auto.
  - rewrite skeleton_app, Hs, Hf. auto.
Qed.

Lemma seq_page_on_console (k : M World unit) st :
  let a := PageOn "console" in
  let r := (page_on_console perform ;; k) st in
  match resp_raised (perform a (world st)) with
  | Some e => result r = Raised e /\ skeleton (events r) = [EvCall a (Some e)]
  | None =>
      let st' := mkSt (resp_next (perform a (world st))) true in
      result r = result (k st') /\
      skeleton (events r) = EvCall a None :: skeleton (events (k st'))
  end.
Proof.
  unfold page_on_console, bind. simpl.
  pose proof (call_result (PageOn "console") st) as Hr.
  pose proof (call_skeleton (PageOn "console") st) as Hs.
  pose proof (call_final (PageOn "console") st) as Hf.
  destruct (resp_raised (perform (PageOn "console") (world st))) as [e|];
    rewrite Hr; simpl.
  - auto.
  - rewrite app_nil_r, skeleton_app, Hs, Hf. auto.
Qed.

Lemma try_finally_call body a st :
  let r := body st in
  let rc := resp_raised (perform a (world (final r))) in
  skeleton (events (try_finally body (call perform a) st)) =
    skeleton (events r) ++ [EvCall a rc] /\
  result (try_finally body (call perform a) st) =
    match rc with Some e => Raised e | None => result r end.
Proof.
  unfold try_finally. simpl.
  pose proof (call_result a (final (body st))) as Hr.
  pose proof (call_skeleton a (final (body st))) as Hs.
  destruct (resp_raised (perform a (world (final (body st))))) as [e|];
    rewrite Hr; simpl; rewrite skeleton_app, Hs; auto.
Qed.

Lemma on_error_spec e st :
  let rs := resp_raised (perform (Screenshot error_png) (world st)) in
  skeleton (events (on_error perform e st)) =
    [EvPrint (error_line e); EvCall (Screenshot error_png) rs] /\
  result (on_error perform e st) =
    match rs with Some e' => Raised e' | None => Returned tt end.
Proof.
  unfold on_error, bind, print. cbn [result events final].
  rewrite skeleton_app, call_skeleton, call_result. split; reflexivity.
Qed.

(** Lines 17-129: the [try] with its handler, before the [finally]. *)
Lemma try_except_cases st :
  let r := try_except (run_body perform) (on_error perform) st in
  (result r = Returned tt /\ skeleton (events r) = map step_ok body_steps) \/
  (exists done a rest e rs,
      body_steps = done ++ SCall a :: rest /\ is_Exception e = true /\
      skeleton (events r) =
        map step_ok done ++
        [EvCall a (Some e); EvPrint (error_line e); EvCall (Screenshot error_png) rs] /\
      result r = match rs with Some e' => Raised e' | None => Returned tt end) \/
  (exists done a rest e,
      body_steps = done ++ SCall a :: rest /\ is_Exception e = false /\
      skeleton (events r) = map step_ok done ++ [EvCall a (Some e)] /\
      result r = Raised e).
Proof.
  unfold try_except. cbv zeta. rewrite run_body_unrolled.
  destruct (exec_steps_cases body_steps st) as [[R S]|(done & a & rest & e & L & R & S)];
    rewrite R.
  - left. auto.
  - right. destruct (is_Exception e) eqn:Ex.
    + left.
      set (st1 := final (exec_steps perform body_steps st)).
      destruct (on_error_spec e st1) as [Hs Hr].
      exists done, a, rest, e, (resp_raised (perform (Screenshot error_png) (world st1))).
      cbn [result events final].
      rewrite skeleton_app, S, Hs, Hr, <- app_assoc. auto.
    + right. exists done, a, rest, e. auto.
Qed.

(** Lines 5-132: every log of [run] has one of the four shapes. *)
Lemma run_cases st :
  RunShape (skeleton (events (run perform st))) (result (run perform st)).
Proof.
  unfold run.
  match goal with |- context [bind (call perform ?a) (fun _ => ?k) ?s] =>
    pose proof (seq_call a k s) as H1 end.
  cbv zeta in H1.
  destruct (resp_raised (perform (ChromiumLaunch true) (world st))) as [e|];
    destruct H1 as [R1 S1]; rewrite R1, S1; clear R1 S1.
  { apply (Shape_setup_raised [] (ChromiumLaunch true)
             [SCall NewContext; SCall NewPage; SCall (PageOn "console")] e).
    reflexivity. }
  match goal with |- context [bind (call perform ?a) (fun _ => ?k) ?s] =>
    pose proof (seq_call a k s) as H2 end.
  cbv zeta in H2.
  match type of H2 with context [resp_raised ?x] =>
    destruct (resp_raised x) as [e|] end;
    destruct H2 as [R2 S2]; rewrite R2, S2; clear R2 S2.
  { apply (Shape_setup_raised [SCall (ChromiumLaunch true)] NewContext
             [SCall NewPage; SCall (PageOn "console")] e).
    reflexivity. }
  match goal with |- context [bind (call perform ?a) (fun _ => ?k) ?s] =>
    pose proof (seq_call a k s) as H3 end.
  cbv zeta in H3.
  match type of H3 with context [resp_raised ?x] =>
    destruct (resp_raised x) as [e|] end;
    destruct H3 as [R3 S3]; rewrite R3, S3; clear R3 S3.
  { apply (Shape_setup_raised [SCall (ChromiumLaunch true); SCall NewContext] NewPage
             [SCall (PageOn "console")] e).
    reflexivity. }
  match goal with |- context [bind (page_on_console perform) (fun _ => ?k) ?s] =>
    pose proof (seq_page_on_console k s) as H4 end.
  cbv zeta in H4.
  match type of H4 with context [resp_raised ?x] =>
    destruct (resp_raised x) as [e|] end;
    destruct H4 as [R4 S4]; rewrite R4, S4; clear R4 S4.
  { apply (Shape_setup_raised
             [SCall (ChromiumLaunch true); SCall NewContext; SCall NewPage]
             (PageOn "console") [] e).
    reflexivity. }
  match goal with |- context [try_finally ?b (call perform ?a) ?s] =>
    destruct (try_finally_call b a s) as [S5 R5];
    destruct (try_except_cases s)
      as [[R S]|[(done & b' & rest & e & rs & L & Ex & S & R)
                |(done & b' & rest & e & L & Ex & S & R)]]
  end; rewrite S5, R5, S, R; clear S5 R5 S R;
  match goal with |- context [resp_raised ?x] => generalize (resp_raised x) end;
  intros rc.
  - apply (Shape_body_passed rc).
  - replace (EvCall (ChromiumLaunch true) None :: EvCall NewContext None ::
             EvCall NewPage None :: EvCall (PageOn "console") None ::
             (map step_ok done ++
              [EvCall b' (Some e); EvPrint (error_line e);
               EvCall (Screenshot error_png) rs]) ++ [EvCall BrowserClose rc])
      with (map step_ok (setup_steps ++ done) ++
            [EvCall b' (Some e); EvPrint (error_line e);
             EvCall (Screenshot error_png) rs; EvCall BrowserClose rc])
      by (rewrite map_app, <- !app_assoc; reflexivity).
    replace (match rc with
             | Some e0 => Raised e0
             | None => match rs with Some e' => Raised e' | None => Returned tt end
             end)
      with (match rc, rs with
            | Some e', _ => @Raised unit e'
            | None, Some e' => Raised e'
            | None, None => Returned tt
            end)
      by (destruct rc, rs; reflexivity).
    eapply Shape_step_caught; eauto.
  - replace (EvCall (ChromiumLaunch true) None :: EvCall NewContext None ::
             EvCall NewPage None :: EvCall (PageOn "console") None ::
             (map step_ok done ++ [EvCall b' (Some e)]) ++ [EvCall BrowserClose rc])
      with (map step_ok (setup_steps ++ done) ++
            [EvCall b' (Some e); EvCall BrowserClose rc])
      by (rewrite map_app, <- !app_assoc; reflexivity).
    replace (match rc with Some e0 => Raised e0 | None => Raised e end)
      with (@Raised unit (match rc with Some e' => e' | None => e end))
      by (destruct rc; reflexivity).
    eapply Shape_step_uncaught; eauto.
Qed.

(** Lines 134-135: every log of [main] wraps a log of [run]. *)
Lemma main_cases st :
  MainShape (skeleton (events (main perform st))) (result (main perform st)).
Proof.
  unfold main.
  match goal with |- context [bind (call perform ?a) (fun _ => ?k) ?s] =>
    pose proof (seq_call a k s) as H end.
  cbv zeta in H.
  destruct (resp_raised (perform SyncPlaywrightEnter (world st))) as [e|];
    destruct H as [R S]; rewrite R, S; clear R S.
  - constructor.
  - match goal with |- context [try_finally ?b (call perform ?a) ?s] =>
      destruct (try_finally_call b a s) as [S R] end.
    rewrite S, R. apply Shape_entered. apply run_cases.
Qed.

(** ** Calls are answered one after the other *)

Lemma sequential_app w l1 l2 :
  sequential perform w (l1 ++ l2) <->
  sequential perform w l1 /\ sequential perform (replay perform w l1) l2.
Proof.
  revert w. induction l1 as [|[a r|s|t] l1 IH]; intros w; simpl.
  - tauto.
  - rewrite IH. tauto.
  - apply IH.
  - apply IH.
Qed.

Lemma replay_app w l1 l2 :
  replay perform w (l1 ++ l2) = replay perform (replay perform w l1) l2.
Proof.
  revert w. induction l1 as [|[a r|s|t] l1 IH]; intros w; simpl; auto.
Qed.

Lemma sequential_relayed w msgs :
  sequential perform w (map EvConsole msgs) /\
  replay perform w (map EvConsole msgs) = w.
Proof. induction msgs; simpl; auto. Qed.

Lemma Threaded_call a : Threaded perform (call perform a).
Proof.
  intros st. unfold call.
  set (relayed := if console_hooked st then _ else _).
  assert (Hrel : sequential perform (world st) relayed /\
                 replay perform (world st) relayed = world st).
  { unfold relayed. destruct (console_hooked st).
    - apply sequential_relayed.
    - simpl. auto. }
  destruct Hrel as [Hs Hw].
  destruct (resp_raised (perform a (world st))) as [e|] eqn:E;
    cbn [events final world]; rewrite sequential_app, replay_app, Hw;
    simpl; auto.
Qed.

Lemma Threaded_print s : Threaded perform (print s).
Proof. intros st. simpl. auto. Qed.

Lemma Threaded_ret : Threaded perform (ret tt).
Proof. intros st. simpl. auto. Qed.

Lemma Threaded_seq m k :
  Threaded perform m -> Threaded perform k -> Threaded perform (m ;; k).
Proof.
  intros Hm Hk st. unfold bind.
  destruct (Hm st) as [Sm Wm].
  destruct (result (m st)); cbn [events final]; auto.
  destruct (Hk (final (m st))) as [Sk Wk].
  rewrite sequential_app, replay_app, <- Wm. auto.
Qed.

Lemma Threaded_page_on_console : Threaded perform (page_on_console perform).
Proof.
  intros st. unfold page_on_console, bind.
  destruct (Threaded_call (PageOn "console") st) as [Sm Wm].
  destruct (result (call perform (PageOn "console") st));
    cbn [events final world]; rewrite ?app_nil_r; auto.
Qed.

Lemma Threaded_try_except body handler :
  Threaded perform body -> (forall e, Threaded perform (handler e)) ->
  Threaded perform (try_except body handler).
Proof.
  intros Hb Hh st. unfold try_except.
  destruct (Hb st) as [Sb Wb].
  destruct (result (body st)) as [|e]; auto.
  destruct (is_Exception e); auto.
  destruct (Hh e (final (body st))) as [Sh Wh].
  cbn [events final]. rewrite sequential_app, replay_app, <- Wb. auto.
Qed.

Lemma Threaded_try_finally body cleanup :
  Threaded perform body -> Threaded perform cleanup ->
  Threaded perform (try_finally body cleanup).
Proof.
  intros Hb Hc st. unfold try_finally.
  destruct (Hb st) as [Sb Wb].
  destruct (Hc (final (body st))) as [Sc Wc].
  destruct (result (cleanup (final (body st))));
    cbn [events final]; rewrite sequential_app, replay_app, <- Wb; auto.
Qed.

Lemma Threaded_ext m m' :
  (forall st, m st = m' st) -> Threaded perform m' -> Threaded perform m.
Proof. intros E H st. rewrite E. apply H. Qed.

Lemma Threaded_exec_steps l : Threaded perform (exec_steps perform l).
Proof.
  induction l as [|[a|s] l IH]; simpl.
  - apply Threaded_ret.
  - apply Threaded_seq; auto using Threaded_call.
  - apply Threaded_seq; auto using Threaded_print.
Qed.

Lemma Threaded_run : Threaded perform (run perform).
Proof.
  unfold run.
  repeat (apply Threaded_seq; [first [apply Threaded_call | apply Threaded_page_on_console]|]).
  apply Threaded_try_finally; [|apply Threaded_call].
  apply Threaded_try_except.
  - apply (Threaded_ext _ (exec_steps perform body_steps)).
    + apply run_body_unrolled.
    + apply Threaded_exec_steps.
  - intros e. unfold on_error.
    apply Threaded_seq; [apply Threaded_print | apply Threaded_call].
Qed.

(** ** Passing runs *)

(** A run in which no call raises performs the whole script and closes
    the browser. *)
Lemma passing_run_skeleton st :
  no_failure (events (run perform st)) = true ->
  skeleton (events (run perform st)) =
    map step_ok (setup_steps ++ body_steps) ++ [EvCall BrowserClose None] /\
  result (run perform st) = Returned tt.
Proof.
  intros H. rewrite <- no_failure_skeleton in H.
  destruct (run_cases st) as [done a rest e L|rc|done a rest e rs rc L Ex|done a rest e rc L Ex].
  - rewrite no_failure_app, no_failure_step_ok in H. discriminate H.
  - destruct rc.
    + rewrite no_failure_app, no_failure_step_ok in H. discriminate H.
    + auto.
  - rewrite no_failure_app, no_failure_step_ok in H. discriminate H.
  - rewrite no_failure_app, no_failure_step_ok in H. discriminate H.
Qed.

Lemma passing_run_calls st :
  no_failure (events (run perform st)) = true ->
  calls_of (events (run perform st)) =
    [ChromiumLaunch true; NewContext; NewPage; PageOn "console"] ++
    body_calls ++ [BrowserClose].
Proof.
  intros H. apply passing_run_skeleton in H. destruct H as [H _].
  rewrite <- calls_of_skeleton, H. vm_compute. reflexivity.
Qed.

(** ** A failing step *)

(** What the log of [run] looks like around a step of the [try] body that
    raised. *)
Lemma failed_body_step_cases st a e :
  In (EvCall a (Some e)) (events (run perform st)) ->
  In (SCall a) body_steps ->
  exists done rest,
    body_steps = done ++ SCall a :: rest /\
    ((is_Exception e = true /\
      exists rs rc,
        skeleton (events (run perform st)) =
          map step_ok (setup_steps ++ done) ++
          [EvCall a (Some e); EvPrint (error_line e);
           EvCall (Screenshot error_png) rs; EvCall BrowserClose rc] /\
        result (run perform st) =
          match rc, rs with
          | Some e', _ => Raised e'
          | None, Some e' => Raised e'
          | None, None => Returned tt
          end) \/
     (is_Exception e = false /\
      exists rc,
        skeleton (events (run perform st)) =
          map step_ok (setup_steps ++ done) ++
          [EvCall a (Some e); EvCall BrowserClose rc] /\
        result (run perform st) =
          Raised (match rc with Some e' => e' | None => e end))).
Proof.
  intros Hin Hbody.
  apply failed_call_in_skeleton in Hin.
  pose proof (run_cases st) as Sh.
  remember (skeleton (events (run perform st))) as evs eqn:Eevs.
  remember (result (run perform st)) as r eqn:Er.
  destruct Sh as [done a0 rest e0 L|rc|done a0 rest e0 rs rc L Ex|done a0 rest e0 rc L Ex];
    apply in_app_or in Hin; destruct Hin as [Hin|Hin];
    try (exfalso; exact (failed_call_not_step_ok _ _ _ Hin)).
  - exfalso. destruct Hin as [Hin|[]]. injection Hin as <- <-.
    apply (setup_not_in_body a0); auto. rewrite L. apply in_elt.
  - exfalso. destruct Hin as [Hin|[]]. injection Hin as <- _.
    apply close_not_in_body; assumption.
  - destruct Hin as [Hin|[Hin|[Hin|[Hin|[]]]]]; try discriminate.
    + injection Hin as <- <-. exists done, rest. split; auto.
      left. split; auto. exists rs, rc. auto.
    + exfalso. injection Hin as <- _. apply error_shot_not_in_body; assumption.
    + exfalso. injection Hin as <- _. apply close_not_in_body; assumption.
  - destruct Hin as [Hin|[Hin|[]]].
    + injection Hin as <- <-. exists done, rest. split; auto.
      right. split; auto. exists rc. auto.
    + exfalso. injection Hin as <- _. apply close_not_in_body; assumption.
Qed.

Lemma error_shots_setup_and_done done a rest :
  body_steps = done ++ SCall a :: rest ->
  error_shots (map step_ok (setup_steps ++ done)) = 0 /\
  forall r, error_shots [EvCall a r] = 0.
Proof.
  intros L.
  assert (L' : body_steps = (done ++ [SCall a]) ++ rest)
    by (rewrite <- app_assoc; exact L).
  apply error_shots_body_prefix in L'.
  rewrite map_app, error_shots_app in L'.
  split.
  - rewrite map_app, error_shots_app.
    assert (error_shots (map step_ok setup_steps) = 0) by reflexivity. lia.
  - intros r. assert (E : error_shots (map step_ok [SCall a]) = 0) by lia.
    unfold error_shots in *. simpl in *.
    destruct (match a with Screenshot p => (p =? error_png)%string | _ => false end);
      [discriminate E | reflexivity].
Qed.

Lemma artifacts_setup_and_done done a rest :
  body_steps = done ++ SCall a :: rest ->
  count_occ string_dec (artifacts (map step_ok (setup_steps ++ done))) error_png = 0.
Proof.
  intros L.
  assert (L' : body_steps = done ++ (SCall a :: rest)) by exact L.
  apply artifacts_body_prefix in L'.
  rewrite map_app, artifacts_app, count_occ_app, L'. reflexivity.
Qed.

(** C1, amended: a step of the [try] body that raises an [Exception] ends
    the scenario there.  The log is the statements before it, the failed
    call, the error message, one call of the error screenshot and
    [browser.close()]: none of the remaining statements runs, the success
    line is not printed, the error screenshot is attempted once and yields
    one artifact when it returns, and the run returns normally when the
    screenshot and the close both return. *)
Theorem step_failure_stops_the_run st a e :
  In (EvCall a (Some e)) (events (run perform st)) ->
  In (SCall a) body_steps ->
  is_Exception e = true ->
  exists done rest rs rc,
    body_steps = done ++ SCall a :: rest /\
    skeleton (events (run perform st)) =
      map step_ok (setup_steps ++ done) ++
      [EvCall a (Some e); EvPrint (error_line e);
       EvCall (Screenshot error_png) rs; EvCall BrowserClose rc] /\
    error_shots (events (run perform st)) = 1 /\
    error_artifacts (events (run perform st)) =
      match rs with Some _ => 0 | None => 1 end /\
    ~ In (EvPrint success_line) (events (run perform st)) /\
    (rs = None -> rc = None -> result (run perform st) = Returned tt).
Proof.
  intros Hin Hbody Ex.
  destruct (failed_body_step_cases st a e Hin Hbody)
    as (done & rest & L & [(_ & rs & rc & S & R)|(Ex' & _)]); [|congruence].
  exists done, rest, rs, rc.
  destruct (error_shots_setup_and_done done a rest L) as [E0 E1].
  repeat split; auto.
  - rewrite <- error_shots_skeleton, S, error_shots_app, E0.
    change [EvCall a (Some e); EvPrint (error_line e);
            EvCall (Screenshot error_png) rs; EvCall BrowserClose rc]
      with ([EvCall a (Some e)] ++
            [EvPrint (error_line e); EvCall (Screenshot error_png) rs;
             EvCall BrowserClose rc]).
    rewrite error_shots_app, E1. reflexivity.
  - unfold error_artifacts.
    rewrite <- artifacts_skeleton, S, artifacts_app, count_occ_app,
      (artifacts_setup_and_done done a rest L).
    change [EvCall a (Some e); EvPrint (error_line e);
            EvCall (Screenshot error_png) rs; EvCall BrowserClose rc]
      with ([EvCall a (Some e)] ++
            [EvPrint (error_line e); EvCall (Screenshot error_png) rs;
             EvCall BrowserClose rc]).
    rewrite artifacts_app, count_occ_app.
    assert (A : artifacts [EvCall a (Some e)] = []) by (destruct a; reflexivity).
    rewrite A. destruct rs; vm_compute; reflexivity.
  - rewrite <- print_in_skeleton, S. intros H.
    apply in_app_or in H. destruct H as [H|H].
    + apply in_map_iff in H. destruct H as (s & Hs & H).
      destruct s as [b|line]; [discriminate|].
      injection Hs as ->.
      apply in_app_or in H. destruct H as [H|H].
      * simpl in H. intuition discriminate.
      * exact (success_line_not_before done a rest L H).
    + simpl in H. destruct H as [H|[H|[H|[H|[]]]]]; discriminate.
  - intros -> ->. exact R.
Qed.

(** ** Which exceptions leave [run] *)

Lemma escaping_exception_origin st e :
  result (run perform st) = Raised e ->
  exists a,
    In (EvCall a (Some e)) (events (run perform st)) /\
    (In (SCall a) setup_steps \/ a = Screenshot error_png \/ a = BrowserClose \/
     (In (SCall a) body_steps /\ is_Exception e = false)).
Proof.
  intros R.
  pose proof (run_cases st) as Sh.
  remember (skeleton (events (run perform st))) as evs eqn:Eevs.
  rewrite R in Sh.
  assert (K : forall a, In (EvCall a (Some e)) evs ->
                        In (EvCall a (Some e)) (events (run perform st)))
    by (intros a; rewrite Eevs; apply failed_call_in_skeleton).
  clear Eevs R.
  remember (@Raised unit e) as r eqn:Er.
  destruct Sh as [done a0 rest e0 L|rc|done a0 rest e0 rs rc L Ex|done a0 rest e0 rc L Ex].
  - injection Er as ->. exists a0. split.
    + apply K, in_or_app. right. left. reflexivity.
    + left. rewrite L. apply in_elt.
  - destruct rc as [e'|]; [|discriminate]. injection Er as ->.
    exists BrowserClose. split; auto.
    apply K, in_or_app. right. left. reflexivity.
  - destruct rc as [e'|].
    + injection Er as ->. exists BrowserClose. split; auto.
      apply K, in_or_app. right. simpl. auto.
    + destruct rs as [e'|]; [|discriminate]. injection Er as ->.
      exists (Screenshot error_png). split; auto.
      apply K, in_or_app. right. simpl. auto.
  - destruct rc as [e'|]; injection Er as ->.
    + exists BrowserClose. split; auto.
      apply K, in_or_app. right. simpl. auto.
    + exists a0. split.
      * apply K, in_or_app. right. simpl. auto.
      * right. right. right. split; auto. rewrite L. apply in_elt.
Qed.

(** C3, amended: an [Exception] raised by a step inside the [try] is
    caught: the handler prints the message and calls the error
    screenshot, and the step's exception leaves [run] only if the
    screenshot or [browser.close()] raises in turn.  An exception raised
    by a call before the [try], by the error screenshot or by
    [browser.close()], and a step's exception that is not an [Exception],
    is not caught: [run] then ends by raising, and what it raises is that
    exception unless [browser.close()] raised after it, in which case it
    is the exception of [browser.close()].  Every exception that leaves
    [run] has one of these origins. *)
Theorem failures_caught_inside_try st :
  (forall a e,
      In (EvCall a (Some e)) (events (run perform st)) ->
      In (SCall a) body_steps -> is_Exception e = true ->
      In (EvPrint (error_line e)) (events (run perform st)) /\
      (exists rs, In (EvCall (Screenshot error_png) rs) (events (run perform st))) /\
      (forall e', result (run perform st) = Raised e' ->
         In (EvCall (Screenshot error_png) (Some e')) (events (run perform st)) \/
         In (EvCall BrowserClose (Some e')) (events (run perform st)))) /\
  (forall a e,
      In (EvCall a (Some e)) (events (run perform st)) ->
      (In (SCall a) setup_steps \/ a = Screenshot error_png \/ a = BrowserClose \/
       (In (SCall a) body_steps /\ is_Exception e = false)) ->
      exists e',
        result (run perform st) = Raised e' /\
        (e' = e \/ In (EvCall BrowserClose (Some e')) (events (run perform st)))) /\
  (forall e,
      result (run perform st) = Raised e ->
      exists a,
        In (EvCall a (Some e)) (events (run perform st)) /\
        (In (SCall a) setup_steps \/ a = Screenshot error_png \/ a = BrowserClose \/
         (In (SCall a) body_steps /\ is_Exception e = false))).
Proof.
  split; [|split; [|apply escaping_exception_origin]].
  - intros a e Hin Hbody Ex.
    destruct (failed_body_step_cases st a e Hin Hbody)
      as (done & rest & L & [(_ & rs & rc & S & R)|(Ex' & _)]); [|congruence].
    assert (I : forall ev, is_console ev = false ->
      In ev [EvCall a (Some e); EvPrint (error_line e);
             EvCall (Screenshot error_png) rs; EvCall BrowserClose rc] ->
      In ev (events (run perform st))).
    { intros ev C H.
      assert (H' : In ev (skeleton (events (run perform st))))
        by (rewrite S; apply in_or_app; auto).
      apply in_skeleton in H'. tauto. }
    split; [|split].
    + apply I; simpl; auto.
    + exists rs. apply I; simpl; auto.
    + intros e' R'. rewrite R in R'.
      destruct rc as [e1|].
      * injection R' as ->. right. apply I; simpl; auto.
      * destruct rs as [e1|]; [|discriminate].
        injection R' as ->. left. apply I; simpl; auto.
  - intros a e Hin O.
    apply (proj2 (failed_call_in_skeleton _ _ _)) in Hin.
    destruct (run_shape_escapes _ _ a e (run_cases st) Hin O) as (e' & R & [E|C]).
    + exists e'. auto.
    + exists e'. split; [exact R|]. right.
      apply (proj1 (failed_call_in_skeleton _ _ _)). exact C.
Qed.

(** C4, amended: once the browser, the context and the page exist and
    the console handler is registered (lines 6-11 returned), every way
    out of [run] goes through [browser.close()]: it is called exactly
    once, as the last call, whether the body passed, a step raised, or the
    handler raised.  If a call of lines 6-11 raises (launch, new_context,
    new_page or page.on), [run] ends there with that exception and
    [browser.close()] is not called, so after a failure of new_context,
    new_page or page.on the launched browser is left open. *)
Theorem browser_closed_once_try_entered st :
  ((forall a e, In (EvCall a (Some e)) (events (run perform st)) ->
                ~ In (SCall a) setup_steps) ->
   exists before rc,
     skeleton (events (run perform st)) = before ++ [EvCall BrowserClose rc] /\
     (forall r, ~ In (EvCall BrowserClose r) before)) /\
  (forall a e,
      In (EvCall a (Some e)) (events (run perform st)) ->
      In (SCall a) setup_steps ->
      result (run perform st) = Raised e /\
      forall rc, ~ In (EvCall BrowserClose rc) (events (run perform st))).
Proof.
  split.
  { 
      intros Hsetup.
      pose proof (run_cases st) as Sh.
      remember (skeleton (events (run perform st))) as evs eqn:Eevs.
      assert (K : forall a e, In (EvCall a (Some e)) evs -> ~ In (SCall a) setup_steps)
        by (intros a e H; apply (Hsetup a e); apply failed_call_in_skeleton; congruence).
      assert (N : forall l r, (forall s, In s l -> In s (setup_steps ++ body_steps)) ->
                              ~ In (EvCall BrowserClose r) (map step_ok l)).
      { intros l r Sub H. apply in_map_iff in H. destruct H as (s & Hs & H).
        destruct s as [b|line]; [|discriminate]. injection Hs as -> _.
        apply Sub, in_app_or in H. destruct H as [H|H].
        - exact (close_not_in_setup H).
        - exact (close_not_in_body H). }
      clear Eevs Hsetup.
      destruct Sh as [done a0 rest e0 L|rc|done a0 rest e0 rs rc L Ex|done a0 rest e0 rc L Ex].
      - exfalso. apply (K a0 e0).
        + apply in_or_app. right. left. reflexivity.
        + rewrite L. apply in_elt.
      - exists (map step_ok (setup_steps ++ body_steps)), rc.
        split; [reflexivity | intros r; apply N; auto].
      - exists (map step_ok (setup_steps ++ done) ++
                [EvCall a0 (Some e0); EvPrint (error_line e0);
                 EvCall (Screenshot error_png) rs]), rc.
        split; [rewrite <- app_assoc; reflexivity|].
        intros r H. apply in_app_or in H. destruct H as [H|H].
        + revert H. apply N. intros s H. apply in_app_or in H.
          apply in_or_app. destruct H as [H|H]; auto.
          right. exact (in_done_in_body done a0 rest s L H).
        + destruct H as [H|[H|[H|[]]]]; try discriminate.
          injection H as -> _. apply close_not_in_body.
          exact (in_body_split done _ rest L).
      - exists (map step_ok (setup_steps ++ done) ++ [EvCall a0 (Some e0)]), rc.
        split; [rewrite <- app_assoc; reflexivity|].
        intros r H. apply in_app_or in H. destruct H as [H|H].
        + revert H. apply N. intros s H. apply in_app_or in H.
          apply in_or_app. destruct H as [H|H]; auto.
          right. exact (in_done_in_body done a0 rest s L H).
        + destruct H as [H|[]].
          injection H as -> _. apply close_not_in_body.
          exact (in_body_split done _ rest L).
  }
  intros a e Hin Hs.
  apply (proj2 (failed_call_in_skeleton _ _ _)) in Hin.
  destruct (run_shape_setup_raised _ _ a e (run_cases st) Hin Hs) as [R N].
  split; [exact R|].
  intros rc K. apply (N rc). apply in_skeleton. split; [exact K|reflexivity].
Qed.

(** ** The exit status *)

(** C2, amended: the process exits with code 0 exactly when no exception
    leaves [run] and the [with] block, that is, when every call that
    raised is a step of the [try] body raising an [Exception] (which the
    handler absorbs).  So the exit code is 0 when every step passes, and
    also after a step failure that the handler reports; it is non-zero
    when a call outside the [try] body raises or a step raises something
    that is not an [Exception]. *)
Theorem exit_code_zero_iff st :
  exit_code (main perform st) = 0 <->
  (forall a e, In (EvCall a (Some e)) (events (main perform st)) ->
               In (SCall a) body_steps /\ is_Exception e = true).
Proof.
  pose proof (main_shape_returns _ _ (main_cases st)) as H.
  assert (E : exit_code (main perform st) = 0 <-> result (main perform st) = Returned tt).
  { unfold exit_code. destruct (result (main perform st)) as [[]|e].
    - tauto.
    - split; discriminate. }
  rewrite E, H. split; intros K a e Hin.
  - apply K. apply (proj2 (failed_call_in_skeleton _ _ _)). assumption.
  - apply K. apply (proj1 (failed_call_in_skeleton _ _ _)). assumption.
Qed.

(** ** Order of execution *)

(** C9: the statements [run] performs are a prefix of the script in
    textual order ([setup_steps] for lines 6-11, then [declared_steps],
    the statements of lines 19-125 as written with the loop unrolled),
    followed only by the handler and the [finally] of lines 127-132; each
    call is answered by the environment in the state the previous call
    left; and when nothing raises, the whole script is performed, in
    order, followed by [browser.close()]. *)
Theorem steps_run_in_declaration_order st :
  sequential perform (world st) (events (run perform st)) /\
  (exists n tail,
      steps_of (events (run perform st)) =
        firstn n (setup_steps ++ declared_steps) ++ tail /\
      (tail = [] \/ tail = [SCall BrowserClose] \/
       exists e, tail = [SPrint (error_line e); SCall (Screenshot error_png);
                         SCall BrowserClose])) /\
  (no_failure (events (run perform st)) = true ->
   steps_of (events (run perform st)) =
     setup_steps ++ declared_steps ++ [SCall BrowserClose]).
Proof.
  rewrite <- body_steps_declared.
  split; [apply Threaded_run|]. split.
  - rewrite <- steps_of_skeleton.
    destruct (run_cases st)
      as [done a0 rest e0 L|rc|done a0 rest e0 rs rc L Ex|done a0 rest e0 rc L Ex].
    + exists (List.length (done ++ [SCall a0])), [].
      split; [|auto]. rewrite app_nil_r, L.
      replace ((done ++ SCall a0 :: rest) ++ body_steps)
        with ((done ++ [SCall a0]) ++ rest ++ body_steps)
        by (rewrite <- !app_assoc; reflexivity).
      rewrite firstn_length_app, steps_of_app, steps_of_step_ok. reflexivity.
    + exists (List.length (setup_steps ++ body_steps)), [SCall BrowserClose].
      split; [|auto].
      rewrite steps_of_app, steps_of_step_ok.
      rewrite firstn_all. reflexivity.
    + exists (List.length (setup_steps ++ done ++ [SCall a0])),
        [SPrint (error_line e0); SCall (Screenshot error_png); SCall BrowserClose].
      split; [|right; right; exists e0; reflexivity].
      rewrite L.
      replace (setup_steps ++ done ++ SCall a0 :: rest)
        with ((setup_steps ++ done ++ [SCall a0]) ++ rest)
        by (rewrite <- !app_assoc; reflexivity).
      rewrite firstn_length_app, steps_of_app, steps_of_step_ok, <- !app_assoc.
      reflexivity.
    + exists (List.length (setup_steps ++ done ++ [SCall a0])), [SCall BrowserClose].
      split; auto.
      rewrite L.
      replace (setup_steps ++ done ++ SCall a0 :: rest)
        with ((setup_steps ++ done ++ [SCall a0]) ++ rest)
        by (rewrite <- !app_assoc; reflexivity).
      rewrite firstn_length_app, steps_of_app, steps_of_step_ok, <- !app_assoc.
      reflexivity.
  - intros H. apply passing_run_skeleton in H. destruct H as [H _].
    rewrite <- steps_of_skeleton, H, steps_of_app, steps_of_step_ok, <- app_assoc.
    reflexivity.
Qed.

(** ** Content of the scenario *)

(** C5: in a run where nothing raises, the calls after the setup start
    with the theme sequence of lines 19-47: navigate to [/?notest=true],
    assert the root element does not have class "dark", click the theme
    switch once, assert the root element has class "dark", reload, assert
    "dark" again.  Restricted to navigation, theme clicks and root class
    assertions, the whole run is that sequence followed by the toggle back
    of lines 51-55. *)
Theorem theme_scenario st :
  no_failure (events (run perform st)) = true ->
  (exists rest,
      calls_of (events (run perform st)) =
        [ChromiumLaunch true; NewContext; NewPage; PageOn "console";
         Goto (BASE_URL ++ "/?notest=true") "networkidle";
         Expect html_element (NotToHaveClass (Str "dark"));
         Expect (SubLocator theme_switcher ".sun-icon") ToBeVisible;
         Screenshot "jules-scratch/verification/01_light_mode_initial.png";
         Click theme_switcher;
         WaitForTimeout 500;
         Expect html_element (ToHaveClass (Str "dark"));
         Expect (SubLocator theme_switcher ".moon-icon") ToBeVisible;
         Screenshot "jules-scratch/verification/02_dark_mode_toggled.png";
         Reload "networkidle";
         WaitForTimeout 500;
         Expect html_element (ToHaveClass (Str "dark"));
         Expect (SubLocator theme_switcher ".moon-icon") ToBeVisible;
         Screenshot "jules-scratch/verification/03_dark_mode_reloaded.png"]
        ++ rest) /\
  theme_view (calls_of (events (run perform st))) =
    [Goto (BASE_URL ++ "/?notest=true") "networkidle";
     Expect html_element (NotToHaveClass (Str "dark"));
     Click theme_switcher;
     Expect html_element (ToHaveClass (Str "dark"));
     Reload "networkidle";
     Expect html_element (ToHaveClass (Str "dark"));
     Click theme_switcher;
     Reload "networkidle";
     Expect html_element (NotToHaveClass (Str "dark"))].
Proof.
  intros H. split.
  - exists (skipn 18 (calls_of (events (run perform st)))).
    rewrite (passing_run_calls st H). vm_compute. reflexivity.
  - rewrite (passing_run_calls st H). vm_compute. reflexivity.
Qed.

(** C6, amended: in a run where nothing raises, the accordion part
    (lines 69-98) is: assert the button is not "active"; click, wait,
    assert it matches "active"; click, wait, assert it is not "active";
    five times click and sleep 50 ms, wait, assert it matches "active";
    one more click and a wait, followed directly by the focus of the
    keyboard test.  So the post-states of the first, the second and the
    fifth rapid click are asserted, the four rapid clicks before it are
    not, and the post-state of the last click is not asserted either. *)
Theorem accordion_scenario st :
  no_failure (events (run perform st)) = true ->
  (exists before rest,
      calls_of (events (run perform st)) =
        before ++
        [Expect proventos_accordion_btn (NotToHaveClass (Str "active"));
         Click proventos_accordion_btn;
         WaitForTimeout 500;
         Expect proventos_accordion_btn (ToHaveClass (ReCompile "active"));
         Screenshot "jules-scratch/verification/04_accordion_open.png";
         Click proventos_accordion_btn;
         WaitForTimeout 500;
         Expect proventos_accordion_btn (NotToHaveClass (Str "active"));
         Click proventos_accordion_btn; TimeSleep 50;
         Click proventos_accordion_btn; TimeSleep 50;
         Click proventos_accordion_btn; TimeSleep 50;
         Click proventos_accordion_btn; TimeSleep 50;
         Click proventos_accordion_btn; TimeSleep 50;
         WaitForTimeout 500;
         Expect proventos_accordion_btn (ToHaveClass (ReCompile "active"));
         Click proventos_accordion_btn;
         WaitForTimeout 500;
         Focus proventos_accordion_btn]
        ++ rest) /\
  firstn 8 (post_conditions (calls_of (events (run perform st)))) =
    [(Click proventos_accordion_btn, Some (ToHaveClass (ReCompile "active")));
     (Click proventos_accordion_btn, Some (NotToHaveClass (Str "active")));
     (Click proventos_accordion_btn, None);
     (Click proventos_accordion_btn, None);
     (Click proventos_accordion_btn, None);
     (Click proventos_accordion_btn, None);
     (Click proventos_accordion_btn, Some (ToHaveClass (ReCompile "active")));
     (Click proventos_accordion_btn, None)].
Proof.
  intros H. split.
  - exists (firstn 25 (calls_of (events (run perform st)))),
           (skipn 48 (calls_of (events (run perform st)))).
    rewrite (passing_run_calls st H). vm_compute. reflexivity.
  - rewrite (passing_run_calls st H). vm_compute. reflexivity.
Qed.

(** C7, amended: in a run where nothing raises, the keyboard test (lines
    98-107: focus, Enter, wait, assertion, screenshot, Enter, wait,
    assertion) makes the same two assertions on the accordion button, in
    the same order, as the click test of lines 72-81: after the first
    activation the button matches "active", after the second it is not
    "active".  The click test starts right after the assertion that the
    button is not "active" (line 69).  The keyboard test starts right
    after the assertion that the button matches "active" (line 91), one
    click (line 93) and a wait (line 94): the state it starts from is not
    asserted. *)
Theorem keyboard_same_postconditions_as_click st :
  no_failure (events (run perform st)) = true ->
  let opened := Expect proventos_accordion_btn (ToHaveClass (ReCompile "active")) in
  let closed := Expect proventos_accordion_btn (NotToHaveClass (Str "active")) in
  let by_click :=
    [Click proventos_accordion_btn; WaitForTimeout 500; opened;
     Screenshot "jules-scratch/verification/04_accordion_open.png";
     Click proventos_accordion_btn; WaitForTimeout 500; closed] in
  let by_keyboard :=
    [Focus proventos_accordion_btn;
     KeyboardPress "Enter"; WaitForTimeout 500; opened;
     Screenshot "jules-scratch/verification/05_accordion_kbd_open.png";
     KeyboardPress "Enter"; WaitForTimeout 500; closed] in
  (exists before between rest,
      calls_of (events (run perform st)) =
        before ++ [closed] ++ by_click ++ between ++
        [opened; Click proventos_accordion_btn; WaitForTimeout 500] ++
        by_keyboard ++ rest) /\
  expectations by_keyboard = expectations by_click /\
  map snd (post_conditions by_keyboard) = map snd (post_conditions by_click) /\
  map snd (skipn 8 (post_conditions (calls_of (events (run perform st))))) =
  map snd (firstn 2 (post_conditions (calls_of (events (run perform st))))) /\
  nth_error (post_conditions (calls_of (events (run perform st)))) 7 =
    Some (Click proventos_accordion_btn, None).
Proof.
  intros H. cbv zeta. split; [|split; [|split; [|split]]].
  - exists (firstn 25 (calls_of (events (run perform st)))),
           (segment 33 44 (calls_of (events (run perform st)))),
           (skipn 55 (calls_of (events (run perform st)))).
    rewrite (passing_run_calls st H). vm_compute. reflexivity.
  - vm_compute. reflexivity.
  - vm_compute. reflexivity.
  - rewrite (passing_run_calls st H). vm_compute. reflexivity.
  - rewrite (passing_run_calls st H). vm_compute. reflexivity.
Qed.

(** C8: in a run where nothing raises, the chart check is the end of the
    scenario: the two inputs are filled with "5000" and "100", the script
    waits 500 ms, asserts that the chart's [svg.chart-svg] is visible and
    that the [.chart-segment] elements have count 3, then takes the sixth
    screenshot.  It is the only count assertion of the run, and its
    argument is 3. *)
Theorem chart_postcondition st :
  no_failure (events (run perform st)) = true ->
  (exists before,
      calls_of (events (run perform st)) =
        before ++
        [Fill (PageLocator "#salario-bruto-salario-liquido") "5000";
         Fill (PageLocator "#desconto-saude-salario-liquido") "100";
         WaitForTimeout 500;
         Expect (SubLocator chart_container "svg.chart-svg") ToBeVisible;
         Expect (SubLocator chart_container ".chart-segment") (ToHaveCount 3);
         Screenshot "jules-scratch/verification/06_svg_chart_restored.png";
         BrowserClose]) /\
  (forall l n,
      In (Expect l (ToHaveCount n)) (calls_of (events (run perform st))) ->
      l = SubLocator chart_container ".chart-segment" /\ n = 3).
Proof.
  intros H. split.
  - exists (firstn 55 (calls_of (events (run perform st)))).
    rewrite (passing_run_calls st H). vm_compute. reflexivity.
  - intros l n. rewrite (passing_run_calls st H).
    intros Hin.
    assert (F : In (l, ToHaveCount n)
                   (expectations ([ChromiumLaunch true; NewContext; NewPage;
                                   PageOn "console"] ++ body_calls ++ [BrowserClose]))).
    { unfold expectations. apply in_flat_map.
      exists (Expect l (ToHaveCount n)). split; [assumption|left; reflexivity]. }
    vm_compute in F.
    repeat (destruct F as [F|F]; [try discriminate F|]); try contradiction.
    injection F as <- <-. split; reflexivity.
Qed.


End Facts.

(** * Concrete runs *)

(** A failing step at work: nothing listens on the port, [page.goto]
    raises, the handler reports it and the run returns. *)
Lemma step_failure_stops_the_run_witness :
  exists done rest rs rc,
    body_steps = done ++ SCall (Goto (BASE_URL ++ "/?notest=true") "networkidle") :: rest /\
    skeleton (events (run (failing server_down) start)) =
      map step_ok (setup_steps ++ done) ++
      [EvCall (Goto (BASE_URL ++ "/?notest=true") "networkidle") (Some connection_refused);
       EvPrint (error_line connection_refused);
       EvCall (Screenshot error_png) rs; EvCall BrowserClose rc] /\
    error_shots (events (run (failing server_down) start)) = 1 /\
    error_artifacts (events (run (failing server_down) start)) =
      match rs with Some _ => 0 | None => 1 end /\
    ~ In (EvPrint success_line) (events (run (failing server_down) start)) /\
    (rs = None -> rc = None ->
     result (run (failing server_down) start) = Returned tt).
Proof.
  apply (step_failure_stops_the_run (failing server_down) start
           (Goto (BASE_URL ++ "/?notest=true") "networkidle") connection_refused).
  - vm_compute. tauto.
  - left. vm_compute. reflexivity.
  - reflexivity.
Defined.

(** C1 as stated fails in two ways.  When the page died, the step raises
    and the error screenshot raises too: a step failed and no error
    artifact was written.  When the user interrupts [time.sleep], the
    step raises [KeyboardInterrupt], which [except Exception] does not
    catch: the error screenshot is not even called. *)
Lemma step_failure_without_error_artifact :
  ~ (forall a e,
        In (EvCall a (Some e)) (events (run (failing page_crashed) start)) ->
        In (SCall a) body_steps ->
        error_artifacts (events (run (failing page_crashed) start)) = 1) /\
  ~ (forall a e,
        In (EvCall a (Some e)) (events (run (failing interrupted) start)) ->
        In (SCall a) body_steps ->
        error_shots (events (run (failing interrupted) start)) = 1).
Proof.
  split; intros H.
  - assert (P1 : In (EvCall (Goto (BASE_URL ++ "/?notest=true") "networkidle")
                            (Some target_closed))
                    (events (run (failing page_crashed) start)))
      by (apply (nth_error_In _ 4); vm_compute; reflexivity).
    assert (P2 : In (SCall (Goto (BASE_URL ++ "/?notest=true") "networkidle")) body_steps)
      by (apply (nth_error_In _ 0); vm_compute; reflexivity).
    pose proof (H _ _ P1 P2) as K. vm_compute in K. discriminate K.
  - assert (P1 : In (EvCall (TimeSleep 50) (Some ctrl_c))
                    (events (run (failing interrupted) start)))
      by (apply (nth_error_In _ 45); vm_compute; reflexivity).
    assert (P2 : In (SCall (TimeSleep 50)) body_steps)
      by (apply (nth_error_In _ 41); vm_compute; reflexivity).
    pose proof (H _ _ P1 P2) as K. vm_compute in K. discriminate K.
Qed.

(** C2 as stated fails when a step raises and the handler absorbs it:
    with nothing listening on the port [page.goto] raises, the run is
    reported as failed, and the process still exits with code 0. *)
Lemma exit_code_zero_after_step_failure :
  exit_code (main (failing server_down) start) = 0 /\
  no_failure (events (main (failing server_down) start)) = false /\
  In (EvCall (Goto (BASE_URL ++ "/?notest=true") "networkidle") (Some connection_refused))
     (events (main (failing server_down) start)).
Proof.
  split; [vm_compute; reflexivity|]. split; [vm_compute; reflexivity|].
  apply (nth_error_In _ 5). vm_compute. reflexivity.
Qed.

(** A caught failure at work: the refused connection is reported by the
    handler and nothing leaves [run]. *)
Lemma failures_caught_inside_try_witness :
  In (EvPrint (error_line connection_refused))
     (events (run (failing server_down) start)) /\
  (exists rs, In (EvCall (Screenshot error_png) rs)
                 (events (run (failing server_down) start))) /\
  (forall e', result (run (failing server_down) start) = Raised e' ->
     In (EvCall (Screenshot error_png) (Some e'))
        (events (run (failing server_down) start)) \/
     In (EvCall BrowserClose (Some e'))
        (events (run (failing server_down) start))).
Proof.
  apply (proj1 (failures_caught_inside_try (failing server_down) start)
           (Goto (BASE_URL ++ "/?notest=true") "networkidle") connection_refused).
  - apply (nth_error_In _ 4). vm_compute. reflexivity.
  - apply (nth_error_In _ 0). vm_compute. reflexivity.
  - reflexivity.
Defined.

(** C3 as stated fails before the [try] is entered: when the browser
    cannot be launched, the exception of line 6 leaves [run] and the
    process; no message is printed and no screenshot is taken. *)
Lemma launch_failure_escapes :
  result (main (failing no_browser) start) = Raised launch_failed /\
  exit_code (main (failing no_browser) start) = 1 /\
  events (main (failing no_browser) start) =
    [EvCall SyncPlaywrightEnter None;
     EvCall (ChromiumLaunch true) (Some launch_failed);
     EvCall SyncPlaywrightExit None].
Proof. repeat split; vm_compute; reflexivity. Qed.

(** The [finally] at work: the refused connection is handled and the
    browser is closed last. *)
Lemma browser_closed_once_try_entered_witness :
  exists before rc,
    skeleton (events (run (failing server_down) start)) =
      before ++ [EvCall BrowserClose rc] /\
    (forall r, ~ In (EvCall BrowserClose r) before).
Proof.
  apply (proj1 (browser_closed_once_try_entered (failing server_down) start)).
  intros a e Hin. vm_compute in Hin.
  repeat (destruct Hin as [Hin|Hin]; [try discriminate Hin|]); try contradiction.
  injection Hin as <- _. vm_compute. intuition discriminate.
Defined.

(** C4 as stated fails between lines 6 and 17: when
    [browser.new_context()] raises, the browser has been launched and
    [run] ends without calling [browser.close()]. *)
Lemma browser_left_open_when_setup_fails :
  events (run (failing no_context) start) =
    [EvCall (ChromiumLaunch true) None; EvCall NewContext (Some target_closed)] /\
  result (run (failing no_context) start) = Raised target_closed /\
  (forall rc, ~ In (EvCall BrowserClose rc) (events (run (failing no_context) start))).
Proof.
  repeat split; try (vm_compute; reflexivity).
  intros rc H. vm_compute in H. intuition discriminate.
Qed.

(** The scenario at work: runs in which every call returns. *)
Lemma theme_scenario_witness :
  theme_view (calls_of (events (run always_ok start))) =
    [Goto (BASE_URL ++ "/?notest=true") "networkidle";
     Expect html_element (NotToHaveClass (Str "dark"));
     Click theme_switcher;
     Expect html_element (ToHaveClass (Str "dark"));
     Reload "networkidle";
     Expect html_element (ToHaveClass (Str "dark"));
     Click theme_switcher;
     Reload "networkidle";
     Expect html_element (NotToHaveClass (Str "dark"))].
Proof.
  apply (theme_scenario always_ok start). vm_compute. reflexivity.
Defined.

Lemma accordion_scenario_witness :
  firstn 8 (post_conditions (calls_of (events (run always_ok start)))) =
    [(Click proventos_accordion_btn, Some (ToHaveClass (ReCompile "active")));
     (Click proventos_accordion_btn, Some (NotToHaveClass (Str "active")));
     (Click proventos_accordion_btn, None);
     (Click proventos_accordion_btn, None);
     (Click proventos_accordion_btn, None);
     (Click proventos_accordion_btn, None);
     (Click proventos_accordion_btn, Some (ToHaveClass (ReCompile "active")));
     (Click proventos_accordion_btn, None)].
Proof.
  apply (accordion_scenario always_ok start). vm_compute. reflexivity.
Defined.

(** C6 as stated fails for the last toggle: in a passing run the eighth
    activation of the accordion, the click of line 93, is followed by no
    assertion on the button before the next activation. *)
Lemma last_toggle_post_state_not_asserted :
  no_failure (events (run always_ok start)) = true /\
  nth_error (post_conditions (calls_of (events (run always_ok start)))) 7 =
    Some (Click proventos_accordion_btn, None) /\
  ~ (exists e,
        nth_error (post_conditions (calls_of (events (run always_ok start)))) 7 =
          Some (Click proventos_accordion_btn, Some e)).
Proof.
  split; [vm_compute; reflexivity|]. split; [vm_compute; reflexivity|].
  intros [e H]. vm_compute in H. discriminate H.
Qed.

Lemma keyboard_same_postconditions_as_click_witness :
  map snd (skipn 8 (post_conditions (calls_of (events (run always_ok start))))) =
  map snd (firstn 2 (post_conditions (calls_of (events (run always_ok start))))).
Proof.
  apply (keyboard_same_postconditions_as_click always_ok start).
  vm_compute. reflexivity.
Defined.

Lemma chart_postcondition_witness :
  exists before,
    calls_of (events (run always_ok start)) =
      before ++
      [Fill (PageLocator "#salario-bruto-salario-liquido") "5000";
       Fill (PageLocator "#desconto-saude-salario-liquido") "100";
       WaitForTimeout 500;
       Expect (SubLocator chart_container "svg.chart-svg") ToBeVisible;
       Expect (SubLocator chart_container ".chart-segment") (ToHaveCount 3);
       Screenshot "jules-scratch/verification/06_svg_chart_restored.png";
       BrowserClose].
Proof.
  apply (chart_postcondition always_ok start). vm_compute. reflexivity.
Defined.

Lemma steps_run_in_declaration_order_witness :
  steps_of (events (run always_ok start)) =
    setup_steps ++ declared_steps ++ [SCall BrowserClose].
Proof.
  apply (steps_run_in_declaration_order always_ok start).
  vm_compute. reflexivity.
Defined.


(** * Further facts about the shapes of a log *)

Lemma artifacts_failed_call a e : artifacts [EvCall a (Some e)] = [].
Proof. destruct a; reflexivity. Qed.

Lemma error_shots_outcome a r :
  error_shots [EvCall a r] = error_shots (map step_ok [SCall a]).
Proof.
  unfold error_shots. simpl. destruct a; try reflexivity.
  destruct (String.eqb path error_png); reflexivity.
Qed.

Lemma error_shots_setup_prefix done a rest r :
  setup_steps = done ++ SCall a :: rest ->
  error_shots (map step_ok done ++ [EvCall a r]) = 0.
Proof.
  intros L.
  assert (E : error_shots (map step_ok setup_steps) = 0) by reflexivity.
  rewrite L in E.
  change (done ++ SCall a :: rest) with (done ++ [SCall a] ++ rest) in E.
  rewrite !map_app, !error_shots_app in E.
  rewrite error_shots_app, error_shots_outcome. lia.
Qed.

Lemma no_failure_iff evs :
  no_failure evs = true <-> forall a e, ~ In (EvCall a (Some e)) evs.
Proof.
  unfold no_failure. rewrite forallb_forall. split.
  - intros H a e Hin. apply H in Hin. discriminate Hin.
  - intros H ev Hin. destruct ev as [a [e|]|s|t]; try reflexivity.
    exfalso. exact (H a e Hin).
Qed.

Lemma prefix_app s t : String.prefix s (s ++ t)%string = true.
Proof.
  induction s as [|c s IH]; simpl; [destruct t; reflexivity|].
  destruct (ascii_dec c c); [exact IH | congruence].
Qed.

(** No line the script prints by itself starts like the error report. *)
Lemma error_line_not_in_script e :
  ~ In (SPrint (error_line e)) (setup_steps ++ body_steps).
Proof.
  intros H.
  assert (F : forallb (fun s => match s with
                                | SPrint l => negb (String.prefix "An error occurred: " l)
                                | SCall _ => true
                                end) (setup_steps ++ body_steps) = true)
    by (vm_compute; reflexivity).
  rewrite forallb_forall in F. apply F in H.
  unfold error_line in H. rewrite prefix_app in H. discriminate H.
Qed.

Lemma success_line_not_in_setup : ~ In (SPrint success_line) setup_steps.
Proof. simpl. intuition discriminate. Qed.

Lemma success_line_is_not_error_line e : EvPrint (error_line e) <> EvPrint success_line.
Proof. unfold error_line, success_line, NL. simpl. discriminate. Qed.

Lemma in_setup_split done a rest s :
  setup_steps = done ++ SCall a :: rest -> In s done -> In s setup_steps.
Proof. intros -> H. apply in_or_app. auto. Qed.

Lemma in_step_ok_print line l : In (EvPrint line) (map step_ok l) -> In (SPrint line) l.
Proof.
  intros H. apply in_map_iff in H. destruct H as ([b|s] & E & H); [discriminate|].
  injection E as ->. exact H.
Qed.

Lemma in_step_ok_call a r l : In (EvCall a r) (map step_ok l) -> In (SCall a) l /\ r = None.
Proof.
  intros H. apply in_map_iff in H. destruct H as ([b|s] & E & H); [|discriminate].
  injection E as -> <-. auto.
Qed.

(** The success line is in a log of [run] exactly when the only call that
    raised, if any, is [browser.close()]. *)
Lemma run_shape_success evs r :
  RunShape evs r ->
  (In (EvPrint success_line) evs <->
   forall a e, In (EvCall a (Some e)) evs -> a = BrowserClose).
Proof.
  intros Sh.
  destruct Sh as [done a0 rest e0 L|rc|done a0 rest e0 rs rc L Ex|done a0 rest e0 rc L Ex].
  - split; intros H; exfalso.
    + apply in_app_or in H. destruct H as [H|[H|[]]]; [|discriminate].
      apply in_step_ok_print in H.
      exact (success_line_not_in_setup (in_setup_split _ _ _ _ L H)).
    + assert (E : a0 = BrowserClose)
        by (apply (H a0 e0); apply in_or_app; right; left; reflexivity).
      apply close_not_in_setup. rewrite <- E, L. apply in_elt.
  - split.
    + intros _ a e H. apply in_app_or in H. destruct H as [H|[H|[]]].
      * exfalso. exact (failed_call_not_step_ok _ _ _ H).
      * injection H as <- _. reflexivity.
    + intros _. apply in_or_app. left. apply in_map_iff.
      exists (SPrint success_line). split; [reflexivity|].
      apply in_or_app. right. apply (nth_error_In _ 75). vm_compute. reflexivity.
  - split; intros H; exfalso.
    + apply in_app_or in H. destruct H as [H|H].
      * apply in_step_ok_print, in_app_or in H. destruct H as [H|H].
        -- exact (success_line_not_in_setup H).
        -- exact (success_line_not_before done a0 rest L H).
      * destruct H as [H|[H|[H|[H|[]]]]];
          first [discriminate | exact (success_line_is_not_error_line e0 H)].
    + assert (E : a0 = BrowserClose)
        by (apply (H a0 e0); apply in_or_app; right; left; reflexivity).
      apply close_not_in_body. rewrite <- E. exact (in_body_split done a0 rest L).
  - split; intros H; exfalso.
    + apply in_app_or in H. destruct H as [H|H].
      * apply in_step_ok_print, in_app_or in H. destruct H as [H|H].
        -- exact (success_line_not_in_setup H).
        -- exact (success_line_not_before done a0 rest L H).
      * destruct H as [H|[H|[]]]; discriminate.
    + assert (E : a0 = BrowserClose)
        by (apply (H a0 e0); apply in_or_app; right; left; reflexivity).
      apply close_not_in_body. rewrite <- E. exact (in_body_split done a0 rest L).
Qed.

(** The error report is printed only by the handler. *)
Lemma run_shape_error_line evs r e :
  RunShape evs r ->
  In (EvPrint (error_line e)) evs ->
  exists a e0,
    In (EvCall a (Some e0)) evs /\ In (SCall a) body_steps /\ is_Exception e0 = true.
Proof.
  intros Sh H.
  assert (N : forall l, (forall s, In s l -> In s (setup_steps ++ body_steps)) ->
                        ~ In (EvPrint (error_line e)) (map step_ok l)).
  { intros l Sub K. apply in_step_ok_print, Sub in K.
    exact (error_line_not_in_script e K). }
  destruct Sh as [done a0 rest e0 L|rc|done a0 rest e0 rs rc L Ex|done a0 rest e0 rc L Ex];
    apply in_app_or in H; destruct H as [H|H].
  - exfalso. revert H. apply N. intros s K. apply in_or_app. left.
    exact (in_setup_split _ _ _ _ L K).
  - destruct H as [H|[]]. discriminate.
  - exfalso. revert H. apply N. auto.
  - destruct H as [H|[]]. discriminate.
  - exfalso. revert H. apply N. intros s K. apply in_app_or in K.
    apply in_or_app. destruct K as [K|K]; auto.
    right. exact (in_done_in_body done a0 rest s L K).
  - exists a0, e0. split; [|split]; auto.
    + apply in_or_app. right. left. reflexivity.
    + exact (in_body_split done a0 rest L).
  - exfalso. revert H. apply N. intros s K. apply in_app_or in K.
    apply in_or_app. destruct K as [K|K]; auto.
    right. exact (in_done_in_body done a0 rest s L K).
  - destruct H as [H|[H|[]]]; discriminate.
Qed.

(** The error screenshot is called at most once, and exactly when a step
    of the [try] body raised an [Exception]. *)
Lemma run_shape_error_shots evs r :
  RunShape evs r ->
  error_shots evs <= 1 /\
  (error_shots evs = 1 <->
   exists a e, In (EvCall a (Some e)) evs /\ In (SCall a) body_steps /\
               is_Exception e = true).
Proof.
  intros Sh.
  destruct Sh as [done a0 rest e0 L|rc|done a0 rest e0 rs rc L Ex|done a0 rest e0 rc L Ex].
  - rewrite (error_shots_setup_prefix done a0 rest (Some e0) L).
    split; [lia|]. split; [discriminate|].
    intros (a & e & H & B & _). exfalso.
    apply in_app_or in H. destruct H as [H|[H|[]]].
    + exact (failed_call_not_step_ok _ _ _ H).
    + injection H as <- _. apply (setup_not_in_body a0); auto.
      rewrite L. apply in_elt.
  - assert (E : error_shots (map step_ok (setup_steps ++ body_steps) ++
                             [EvCall BrowserClose rc]) = 0).
    { rewrite error_shots_app.
      assert (E1 : error_shots (map step_ok (setup_steps ++ body_steps)) = 0)
        by (vm_compute; reflexivity).
      rewrite E1. reflexivity. }
    rewrite E. split; [lia|]. split; [discriminate|].
    intros (a & e & H & B & _). exfalso.
    apply in_app_or in H. destruct H as [H|[H|[]]].
    + exact (failed_call_not_step_ok _ _ _ H).
    + injection H as <- _. exact (close_not_in_body B).
  - destruct (error_shots_setup_and_done done a0 rest L) as [E0 E1].
    assert (E : error_shots (map step_ok (setup_steps ++ done) ++
                             [EvCall a0 (Some e0); EvPrint (error_line e0);
                              EvCall (Screenshot error_png) rs;
                              EvCall BrowserClose rc]) = 1).
    { rewrite error_shots_app, E0.
      change [EvCall a0 (Some e0); EvPrint (error_line e0);
              EvCall (Screenshot error_png) rs; EvCall BrowserClose rc]
        with ([EvCall a0 (Some e0)] ++
              [EvPrint (error_line e0); EvCall (Screenshot error_png) rs;
               EvCall BrowserClose rc]).
      rewrite error_shots_app, E1. reflexivity. }
    rewrite E. split; [lia|]. split; [|reflexivity].
    intros _. exists a0, e0. split; [|split]; auto.
    + apply in_or_app. right. left. reflexivity.
    + exact (in_body_split done a0 rest L).
  - destruct (error_shots_setup_and_done done a0 rest L) as [E0 E1].
    assert (E : error_shots (map step_ok (setup_steps ++ done) ++
                             [EvCall a0 (Some e0); EvCall BrowserClose rc]) = 0).
    { rewrite error_shots_app, E0.
      change [EvCall a0 (Some e0); EvCall BrowserClose rc]
        with ([EvCall a0 (Some e0)] ++ [EvCall BrowserClose rc]).
      rewrite error_shots_app, E1. reflexivity. }
    rewrite E. split; [lia|]. split; [discriminate|].
    intros (a & e & H & B & X). exfalso.
    apply in_app_or in H. destruct H as [H|[H|[H|[]]]].
    + exact (failed_call_not_step_ok _ _ _ H).
    + injection H as <- <-. congruence.
    + injection H as <- _. exact (close_not_in_body B).
Qed.

(** An exception raised by [browser.close()] is the one that leaves
    [run]. *)
Lemma run_shape_close_raised evs r e' :
  RunShape evs r -> In (EvCall BrowserClose (Some e')) evs -> r = Raised e'.
Proof.
  intros Sh H.
  destruct Sh as [done a0 rest e0 L|rc|done a0 rest e0 rs rc L Ex|done a0 rest e0 rc L Ex];
    apply in_app_or in H; destruct H as [H|H];
    try (exfalso; exact (failed_call_not_step_ok _ _ _ H)).
  - exfalso. destruct H as [H|[]]. injection H as -> _.
    apply close_not_in_setup. rewrite L. apply in_elt.
  - destruct H as [H|[]]. injection H as ->. reflexivity.
  - destruct H as [H|[H|[H|[H|[]]]]]; try discriminate.
    + exfalso. injection H as -> _.
      exact (close_not_in_body (in_body_split done _ rest L)).
    + injection H as ->. reflexivity.
  - destruct H as [H|[H|[]]].
    + exfalso. injection H as -> _.
      exact (close_not_in_body (in_body_split done _ rest L)).
    + injection H as ->. reflexivity.
Qed.

(** [run] only makes the calls written in it. *)
Lemma run_shape_calls evs r a x :
  RunShape evs r -> In (EvCall a x) evs ->
  In (SCall a) (setup_steps ++ body_steps) \/ a = Screenshot error_png \/ a = BrowserClose.
Proof.
  intros Sh H.
  destruct Sh as [done a0 rest e0 L|rc|done a0 rest e0 rs rc L Ex|done a0 rest e0 rc L Ex];
    apply in_app_or in H; destruct H as [H|H].
  - left. apply in_step_ok_call in H. destruct H as [H _].
    apply in_or_app. left. exact (in_setup_split _ _ _ _ L H).
  - destruct H as [H|[]]. injection H as <- _.
    left. apply in_or_app. left. rewrite L. apply in_elt.
  - left. apply in_step_ok_call in H. tauto.
  - destruct H as [H|[]]. injection H as <- _. auto.
  - left. apply in_step_ok_call in H. destruct H as [H _].
    apply in_app_or in H. apply in_or_app. destruct H as [H|H]; auto.
    right. exact (in_done_in_body done a0 rest _ L H).
  - destruct H as [H|[H|[H|[H|[]]]]]; try discriminate.
    + injection H as <- _. left. apply in_or_app. right.
      exact (in_body_split done a0 rest L).
    + injection H as <- _. auto.
    + injection H as <- _. auto.
  - left. apply in_step_ok_call in H. destruct H as [H _].
    apply in_app_or in H. apply in_or_app. destruct H as [H|H]; auto.
    right. exact (in_done_in_body done a0 rest _ L H).
  - destruct H as [H|[H|[]]].
    + injection H as <- _. left. apply in_or_app. right.
      exact (in_body_split done a0 rest L).
    + injection H as <- _. auto.
Qed.

Lemma exit_not_called_by_run evs r x :
  RunShape evs r -> ~ In (EvCall SyncPlaywrightExit x) evs.
Proof.
  intros Sh H. destruct (run_shape_calls _ _ _ _ Sh H) as [K|[K|K]]; try discriminate.
  apply in_app_or in K. destruct K as [K|K].
  - simpl in K. intuition discriminate.
  - exact (exit_not_in_body K).
Qed.

(** A log of [run] has no failed call exactly when the run returned and
    printed the success line. *)
Lemma run_shape_passed evs r :
  RunShape evs r ->
  (no_failure evs = true <-> r = Returned tt /\ In (EvPrint success_line) evs).
Proof.
  intros Sh.
  rewrite no_failure_iff, (run_shape_returns evs r Sh), (run_shape_success evs r Sh).
  split.
  - intros H. split; intros a e Hin; exfalso; exact (H a e Hin).
  - intros [R S] a e Hin.
    destruct (R a e Hin) as [B _]. rewrite (S a e Hin) in B.
    exact (close_not_in_body B).
Qed.

Lemma main_shape_passed evs r :
  MainShape evs r ->
  (no_failure evs = true <-> r = Returned tt /\ In (EvPrint success_line) evs).
Proof.
  intros Sh. destruct Sh as [e0|evs r rx Sh].
  - split; [discriminate|]. intros [H _]. discriminate H.
  - pose proof (run_shape_passed evs r Sh) as IH.
    assert (P : In (EvPrint success_line)
                   (EvCall SyncPlaywrightEnter None :: evs ++ [EvCall SyncPlaywrightExit rx])
                <-> In (EvPrint success_line) evs).
    { split; intros H.
      - destruct H as [H|H]; [discriminate|].
        apply in_app_or in H. destruct H as [H|[H|[]]]; [exact H|discriminate].
      - right. apply in_or_app. auto. }
    rewrite P.
    change (EvCall SyncPlaywrightEnter None :: evs ++ [EvCall SyncPlaywrightExit rx])
      with ([EvCall SyncPlaywrightEnter None] ++ evs ++ [EvCall SyncPlaywrightExit rx]).
    rewrite !no_failure_app. destruct rx as [e'|]; simpl.
    + rewrite andb_false_r. split; [discriminate|]. intros [H _]. discriminate H.
    + rewrite andb_true_r. exact IH.
Qed.

(** The screenshots a run writes are the numbered ones in order, up to
    the first step that raised, then the error screenshot if the handler
    ran and its call returned. *)
Lemma run_shape_artifacts evs r :
  RunShape evs r ->
  exists k,
    artifacts evs = firstn k numbered_screenshots \/
    (artifacts evs = firstn k numbered_screenshots ++ [error_png] /\
     In (EvCall (Screenshot error_png) None) evs).
Proof.
  assert (Setup : artifacts (map step_ok setup_steps) = []) by reflexivity.
  assert (Body : artifacts (map step_ok body_steps) = numbered_screenshots)
    by (vm_compute; reflexivity).
  assert (Done : forall done a rest, body_steps = done ++ SCall a :: rest ->
            artifacts (map step_ok (setup_steps ++ done)) =
            firstn (List.length (artifacts (map step_ok done))) numbered_screenshots).
  { intros done a rest L. rewrite map_app, artifacts_app, Setup. simpl.
    rewrite <- Body, L, map_app, artifacts_app, firstn_length_app. reflexivity. }
  intros Sh.
  destruct Sh as [done a0 rest e0 L|rc|done a0 rest e0 rs rc L Ex|done a0 rest e0 rc L Ex].
  - exists 0. left. rewrite artifacts_app, artifacts_failed_call, app_nil_r.
    rewrite L, map_app, artifacts_app in Setup.
    apply app_eq_nil in Setup. tauto.
  - exists 6. left. rewrite artifacts_app, map_app, artifacts_app, Setup, Body.
    destruct rc; reflexivity.
  - exists (List.length (artifacts (map step_ok done))).
    rewrite artifacts_app, (Done done a0 rest L).
    change [EvCall a0 (Some e0); EvPrint (error_line e0);
            EvCall (Screenshot error_png) rs; EvCall BrowserClose rc]
      with ([EvCall a0 (Some e0)] ++
            [EvPrint (error_line e0); EvCall (Screenshot error_png) rs;
             EvCall BrowserClose rc]).
    rewrite artifacts_app, artifacts_failed_call.
    destruct rs as [e'|].
    + left. simpl. rewrite app_nil_r. reflexivity.
    + right. split; [reflexivity|].
      apply in_or_app. right. apply in_or_app. right. simpl. auto.
  - exists (List.length (artifacts (map step_ok done))). left.
    rewrite artifacts_app, (Done done a0 rest L).
    change [EvCall a0 (Some e0); EvCall BrowserClose rc]
      with ([EvCall a0 (Some e0)] ++ [EvCall BrowserClose rc]).
    rewrite artifacts_app, artifacts_failed_call. simpl.
    rewrite app_nil_r. reflexivity.
Qed.

Lemma settled_app u l1 l2 :
  settled_from u (l1 ++ l2) =
  settled_from u l1 && settled_from (fold_left unsettled_after l1 u) l2.
Proof.
  revert u. induction l1 as [|a l1 IH]; intros u; simpl; [reflexivity|].
  rewrite IH, andb_assoc. reflexivity.
Qed.

Lemma settled_script_prefix P Q :
  setup_steps ++ body_steps = P ++ Q ->
  settled_from false (calls_of (map step_ok P)) = true.
Proof.
  intros E.
  assert (S : settled_from false (calls_of (map step_ok (setup_steps ++ body_steps))) = true)
    by (vm_compute; reflexivity).
  rewrite E, map_app, calls_of_app, settled_app in S.
  apply andb_prop in S. tauto.
Qed.

(** In a log of [run] no assertion is made while the page is unsettled. *)
Lemma run_shape_settled evs r :
  RunShape evs r -> settled_from false (calls_of evs) = true.
Proof.
  intros Sh.
  destruct Sh as [done a0 rest e0 L|rc|done a0 rest e0 rs rc L Ex|done a0 rest e0 rc L Ex].
  - replace (calls_of (map step_ok done ++ [EvCall a0 (Some e0)]))
      with (calls_of (map step_ok (done ++ [SCall a0])))
      by (rewrite map_app, !calls_of_app; reflexivity).
    apply (settled_script_prefix _ (rest ++ body_steps)).
    rewrite L, <- !app_assoc. reflexivity.
  - rewrite calls_of_app, settled_app.
    rewrite (settled_script_prefix (setup_steps ++ body_steps) []);
      [reflexivity | rewrite app_nil_r; reflexivity].
  - replace (calls_of (map step_ok (setup_steps ++ done) ++
                       [EvCall a0 (Some e0); EvPrint (error_line e0);
                        EvCall (Screenshot error_png) rs; EvCall BrowserClose rc]))
      with (calls_of (map step_ok (setup_steps ++ done ++ [SCall a0])) ++
            [Screenshot error_png; BrowserClose])
      by (rewrite !map_app, !calls_of_app, <- !app_assoc; reflexivity).
    rewrite settled_app.
    rewrite (settled_script_prefix (setup_steps ++ done ++ [SCall a0]) rest);
      [reflexivity | rewrite L, <- !app_assoc; reflexivity].
  - replace (calls_of (map step_ok (setup_steps ++ done) ++
                       [EvCall a0 (Some e0); EvCall BrowserClose rc]))
      with (calls_of (map step_ok (setup_steps ++ done ++ [SCall a0])) ++ [BrowserClose])
      by (rewrite !map_app, !calls_of_app, <- !app_assoc; reflexivity).
    rewrite settled_app.
    rewrite (settled_script_prefix (setup_steps ++ done ++ [SCall a0]) rest);
      [reflexivity | rewrite L, <- !app_assoc; reflexivity].
Qed.

Lemma console_of_app l1 l2 : console_of (l1 ++ l2) = console_of l1 ++ console_of l2.
Proof. apply flat_map_app. Qed.

Lemma console_of_relayed msgs : console_of (map EvConsole msgs) = msgs.
Proof. induction msgs; simpl; congruence. Qed.

Lemma calls_of_relayed msgs : calls_of (map EvConsole msgs) = [].
Proof. induction msgs; simpl; auto. Qed.

(** * Further facts about the runner, for every environment *)

Section MoreFacts.

Context {World : Type} (perform : Action -> World -> Response World).

Local Notation "m ;; k" := (bind m (fun _ => k)) (at level 61, right associativity).

(** ** The console relay *)

Lemma emitted_app w l1 l2 :
  emitted perform w (l1 ++ l2) =
  emitted perform w l1 ++ emitted perform (replay_calls perform w l1) l2.
Proof.
  revert w. induction l1 as [|a l1 IH]; intros w; simpl; [reflexivity|].
  rewrite IH, app_assoc. reflexivity.
Qed.

Lemma replay_calls_app w l1 l2 :
  replay_calls perform w (l1 ++ l2) =
  replay_calls perform (replay_calls perform w l1) l2.
Proof. revert w. induction l1 as [|a l1 IH]; intros w; simpl; auto. Qed.

Lemma call_calls a st : calls_of (events (call perform a st)) = [a].
Proof.
  unfold call. destruct (resp_raised _); cbn [events];
    rewrite calls_of_app; destruct (console_hooked st);
    rewrite ?calls_of_relayed; reflexivity.
Qed.

Lemma call_console a st :
  console_of (events (call perform a st)) =
  if console_hooked st then resp_console (perform a (world st)) else [].
Proof.
  unfold call. destruct (resp_raised _); cbn [events];
    rewrite console_of_app; destruct (console_hooked st);
    rewrite ?console_of_relayed, ?app_nil_r; reflexivity.
Qed.

Lemma Relays_call a : Relays perform (call perform a).
Proof.
  intros st H. rewrite call_calls, call_console, call_final, H. simpl.
  rewrite app_nil_r. auto.
Qed.

Lemma Relays_print s : Relays perform (print s).
Proof. intros st H. simpl. auto. Qed.

Lemma Relays_ret : Relays perform (ret tt).
Proof. intros st H. simpl. auto. Qed.

Lemma Relays_seq m k :
  Relays perform m -> Relays perform k -> Relays perform (m ;; k).
Proof.
  intros Hm Hk st H. unfold bind.
  destruct (Hm st H) as (H1 & W1 & C1).
  destruct (result (m st)); cbn [events final]; auto.
  destruct (Hk (final (m st)) H1) as (H2 & W2 & C2).
  rewrite calls_of_app, console_of_app, emitted_app, replay_calls_app, <- W1.
  rewrite C1, C2. auto.
Qed.

Lemma Relays_try_except body handler :
  Relays perform body -> (forall e, Relays perform (handler e)) ->
  Relays perform (try_except body handler).
Proof.
  intros Hb Hh st H. unfold try_except.
  destruct (Hb st H) as (H1 & W1 & C1).
  destruct (result (body st)) as [|e]; auto.
  destruct (is_Exception e); auto.
  destruct (Hh e (final (body st)) H1) as (H2 & W2 & C2).
  cbn [events final].
  rewrite calls_of_app, console_of_app, emitted_app, replay_calls_app, <- W1.
  rewrite C1, C2. auto.
Qed.

Lemma Relays_try_finally body cleanup :
  Relays perform body -> Relays perform cleanup ->
  Relays perform (try_finally body cleanup).
Proof.
  intros Hb Hc st H. unfold try_finally.
  destruct (Hb st H) as (H1 & W1 & C1).
  destruct (Hc (final (body st)) H1) as (H2 & W2 & C2).
  destruct (result (cleanup (final (body st)))); cbn [events final];
    rewrite calls_of_app, console_of_app, emitted_app, replay_calls_app, <- W1;
    rewrite C1, C2; auto.
Qed.

Lemma Relays_exec_steps l : Relays perform (exec_steps perform l).
Proof.
  induction l as [|[a|s] l IH]; simpl.
  - apply Relays_ret.
  - apply Relays_seq; auto using Relays_call.
  - apply Relays_seq; auto using Relays_print.
Qed.

(** Lines 17-132, entered with the handler registered. *)
Lemma Relays_try_block :
  Relays perform
    (try_finally (try_except (run_body perform) (on_error perform))
                 (call perform BrowserClose)).
Proof.
  apply Relays_try_finally; [|apply Relays_call].
  apply Relays_try_except.
  - intros st H. rewrite run_body_unrolled. apply Relays_exec_steps. exact H.
  - intros e. unfold on_error.
    apply Relays_seq; [apply Relays_print | apply Relays_call].
Qed.

Lemma unhooked_call a st :
  console_hooked st = false ->
  events (call perform a st) = [EvCall a (resp_raised (perform a (world st)))] /\
  final (call perform a st) = mkSt (resp_next (perform a (world st))) false.
Proof.
  intros H. unfold call. rewrite H.
  destruct (resp_raised (perform a (world st))); auto.
Qed.

Lemma unhooked_seq_call a (k : M World unit) st :
  console_hooked st = false ->
  match resp_raised (perform a (world st)) with
  | Some e => events ((call perform a ;; k) st) = [EvCall a (Some e)]
  | None =>
      events ((call perform a ;; k) st) =
      EvCall a None :: events (k (mkSt (resp_next (perform a (world st))) false))
  end.
Proof.
  intros H. unfold bind.
  destruct (unhooked_call a st H) as [E F].
  pose proof (call_result perform a st) as R.
  destruct (resp_raised (perform a (world st))) as [e|]; rewrite R; cbn [events final].
  - exact E.
  - rewrite E, F. reflexivity.
Qed.

Lemma unhooked_seq_page_on_console (k : M World unit) st :
  console_hooked st = false ->
  match resp_raised (perform (PageOn "console") (world st)) with
  | Some e =>
      events ((page_on_console perform ;; k) st) = [EvCall (PageOn "console") (Some e)]
  | None =>
      events ((page_on_console perform ;; k) st) =
      EvCall (PageOn "console") None ::
      events (k (mkSt (resp_next (perform (PageOn "console") (world st))) true))
  end.
Proof.
  intros H. unfold page_on_console, bind.
  destruct (unhooked_call (PageOn "console") st H) as [E F].
  pose proof (call_result perform (PageOn "console") st) as R.
  destruct (resp_raised (perform (PageOn "console") (world st))) as [e|];
    rewrite R; cbn [events final result world].
  - exact E.
  - rewrite E, F. cbn [world]. rewrite app_nil_r. reflexivity.
Qed.

(** X1: the console handler is registered at line 11, after the page
    exists.  Started without a handler, [run] prints exactly the console
    messages the environment emits during the calls that follow the
    first four (launch, new_context, new_page, page.on), in the order of
    emission; what the browser logs during those four calls is never
    printed. *)
Theorem console_relay_starts_after_registration st :
  console_hooked st = false ->
  console_of (events (run perform st)) =
    emitted perform
      (replay_calls perform (world st) (firstn 4 (calls_of (events (run perform st)))))
      (skipn 4 (calls_of (events (run perform st)))).
Proof.
  intros H. unfold run.
  match goal with |- context [bind (call perform ?a) (fun _ => ?k) ?s] =>
    pose proof (unhooked_seq_call a k s H) as H1 end.
  destruct (resp_raised (perform (ChromiumLaunch true) (world st))) as [e|];
    rewrite H1; clear H1; [reflexivity|].
  match goal with |- context [bind (call perform ?a) (fun _ => ?k) ?s] =>
    pose proof (unhooked_seq_call a k s eq_refl) as H2 end.
  cbn [world] in H2.
  match type of H2 with context [resp_raised ?x] =>
    destruct (resp_raised x) as [e|] end;
    rewrite H2; clear H2; [reflexivity|].
  match goal with |- context [bind (call perform ?a) (fun _ => ?k) ?s] =>
    pose proof (unhooked_seq_call a k s eq_refl) as H3 end.
  cbn [world] in H3.
  match type of H3 with context [resp_raised ?x] =>
    destruct (resp_raised x) as [e|] end;
    rewrite H3; clear H3; [reflexivity|].
  match goal with |- context [bind (page_on_console perform) (fun _ => ?k) ?s] =>
    pose proof (unhooked_seq_page_on_console k s eq_refl) as H4 end.
  cbn [world] in H4.
  match type of H4 with context [resp_raised ?x] =>
    destruct (resp_raised x) as [e|] end;
    rewrite H4; clear H4; [reflexivity|].
  match goal with |- context [events (?t ?s)] =>
    destruct (Relays_try_block s eq_refl) as (_ & _ & C) end.
  cbn [world] in C. exact C.
Qed.

(** The error screenshot is not called unless a step raised an
    [Exception]. *)
Lemma error_screenshot_count_cases st :
  error_shots (events (run perform st)) = 0 \/
  exists a e, In (EvCall a (Some e)) (events (run perform st)) /\
              In (SCall a) body_steps /\ is_Exception e = true.
Proof.
  destruct (run_shape_error_shots _ _ (run_cases perform st)) as [B I].
  rewrite error_shots_skeleton in B, I.
  destruct (error_shots (events (run perform st))) as [|[|n]]; [auto| |lia].
  right. destruct (proj1 I eq_refl) as (a & e & Hin & K).
  exists a, e. split; [|exact K].
  apply (proj1 (failed_call_in_skeleton _ _ _)). exact Hin.
Qed.

(** ** Screenshots *)

(** X2: whatever the environment does, the screenshots [run] writes are
    the numbered ones of lines 30-120 in their order, up to the first step
    that raised, followed by [error.png] only when the handler ran and its
    screenshot call returned; no file is written twice or out of order.
    When no call raises, they are exactly the six numbered screenshots. *)
Theorem screenshots_written_in_order st :
  (exists k,
      artifacts (events (run perform st)) = firstn k numbered_screenshots \/
      (artifacts (events (run perform st)) =
         firstn k numbered_screenshots ++ [error_png] /\
       In (EvCall (Screenshot error_png) None) (events (run perform st)))) /\
  (no_failure (events (run perform st)) = true ->
   artifacts (events (run perform st)) = numbered_screenshots).
Proof.
  split.
  - destruct (run_shape_artifacts _ _ (run_cases perform st)) as [k [H|[H I]]];
      exists k; rewrite artifacts_skeleton in H; [left; exact H|].
    right. split; [exact H|]. apply in_skeleton in I. tauto.
  - intros H. apply (passing_run_skeleton perform) in H. destruct H as [H _].
    rewrite <- artifacts_skeleton, H. vm_compute. reflexivity.
Qed.

(** ** What the log says about the outcome *)

(** X3: the success line of line 125 is printed exactly when no call
    before [browser.close()] raised: a failure of [browser.close()] itself
    comes after the line is printed.  The success line and an error
    report of line 128 are never both in the log. *)
Theorem success_line_iff_only_close_raised st :
  (In (EvPrint success_line) (events (run perform st)) <->
   forall a e, In (EvCall a (Some e)) (events (run perform st)) -> a = BrowserClose) /\
  (In (EvPrint success_line) (events (run perform st)) ->
   forall e, ~ In (EvPrint (error_line e)) (events (run perform st))).
Proof.
  pose proof (run_cases perform st) as Sh.
  pose proof (run_shape_success _ _ Sh) as S.
  rewrite print_in_skeleton in S.
  assert (S' : In (EvPrint success_line) (events (run perform st)) <->
               forall a e, In (EvCall a (Some e)) (events (run perform st)) ->
                           a = BrowserClose).
  { rewrite S. split; intros K a e Hin; apply (K a e).
    - apply (proj2 (failed_call_in_skeleton _ _ _)). exact Hin.
    - apply (proj1 (failed_call_in_skeleton _ _ _)). exact Hin. }
  split; [exact S'|].
  intros Hs e He. rewrite S' in Hs.
  apply (proj2 (print_in_skeleton _ _)) in He.
  destruct (run_shape_error_line _ _ e Sh He) as (a & e0 & Hin & B & _).
  apply (proj1 (failed_call_in_skeleton _ _ _)) in Hin.
  rewrite (Hs a e0 Hin) in B. exact (close_not_in_body B).
Qed.

(** X4: in every run the error screenshot of line 129 is called at most
    once, and it is called exactly when some step of the [try] body raised
    an [Exception]; it is never taken after a failure of lines 6-11, after
    a [KeyboardInterrupt], or on a passing run. *)
Theorem error_screenshot_at_most_once st :
  error_shots (events (run perform st)) <= 1 /\
  (error_shots (events (run perform st)) = 1 <->
   exists a e, In (EvCall a (Some e)) (events (run perform st)) /\
               In (SCall a) body_steps /\ is_Exception e = true).
Proof.
  destruct (run_shape_error_shots _ _ (run_cases perform st)) as [B I].
  rewrite error_shots_skeleton in B, I. split; [exact B|].
  rewrite I. split; intros (a & e & Hin & K); exists a, e; split; try exact K.
  - apply (proj1 (failed_call_in_skeleton _ _ _)). exact Hin.
  - apply (proj2 (failed_call_in_skeleton _ _ _)). exact Hin.
Qed.

(** X5: an exception raised in a clean-up replaces whatever was pending.
    If [browser.close()] raises, that exception is the one that leaves
    [run], also when the scenario passed or when a step had raised
    something else; if stopping Playwright at the end of the [with] block
    raises, that exception is the one that leaves the script. *)
Theorem cleanup_exception_replaces_pending st e' :
  (In (EvCall BrowserClose (Some e')) (events (run perform st)) ->
   result (run perform st) = Raised e') /\
  (In (EvCall SyncPlaywrightExit (Some e')) (events (main perform st)) ->
   result (main perform st) = Raised e').
Proof.
  split; intros H; apply (proj2 (failed_call_in_skeleton _ _ _)) in H.
  - exact (run_shape_close_raised _ _ e' (run_cases perform st) H).
  - pose proof (main_cases perform st) as Sh.
    remember (skeleton (events (main perform st))) as evs eqn:E.
    remember (result (main perform st)) as r eqn:R.
    clear E R. destruct Sh as [e0|evs r rx Sh].
    + destruct H as [H|[]]. discriminate H.
    + destruct H as [H|H]; [discriminate H|].
      apply in_app_or in H. destruct H as [H|[H|[]]].
      * exfalso. exact (exit_not_called_by_run _ _ _ Sh H).
      * injection H as ->. reflexivity.
Qed.

(** X6: once [sync_playwright()] has been entered, every way out of the
    script stops Playwright: the exit of the [with] block is called
    exactly once, as the last call, also when the browser cannot be
    launched or a later call of lines 6-11 raises. *)
Theorem playwright_stopped_on_every_path st :
  (forall e, ~ In (EvCall SyncPlaywrightEnter (Some e)) (events (main perform st))) ->
  exists mid rx,
    skeleton (events (main perform st)) =
      EvCall SyncPlaywrightEnter None :: mid ++ [EvCall SyncPlaywrightExit rx] /\
    (forall x, ~ In (EvCall SyncPlaywrightExit x) mid) /\
    (forall e, rx = Some e -> result (main perform st) = Raised e).
Proof.
  intros H.
  pose proof (main_cases perform st) as Sh.
  assert (K : forall e, ~ In (EvCall SyncPlaywrightEnter (Some e))
                             (skeleton (events (main perform st))))
    by (intros e X; apply (proj1 (failed_call_in_skeleton _ _ _)) in X; exact (H e X)).
  remember (skeleton (events (main perform st))) as evs eqn:E.
  remember (result (main perform st)) as r eqn:R.
  clear E R H. destruct Sh as [e0|evs r rx Sh].
  - exfalso. apply (K e0). left. reflexivity.
  - exists evs, rx. split; [reflexivity|]. split.
    + intros x. exact (exit_not_called_by_run _ _ x Sh).
    + intros e ->. reflexivity.
Qed.

(** X7: in every run, each assertion is made on a settled page: between a
    click, a key press, a fill or a reload and the next [expect] there is
    always a [wait_for_timeout] of at least 500 ms. *)
Theorem assertions_only_after_settle_wait st :
  settled_from false (calls_of (events (run perform st))) = true.
Proof.
  rewrite <- calls_of_skeleton.
  exact (run_shape_settled _ _ (run_cases perform st)).
Qed.

(** X8: a step that raises something that is not an [Exception]
    (a [KeyboardInterrupt]) is not reported: no error line is printed and
    the error screenshot is not called.  The scenario still stops there,
    [browser.close()] is still called, and the interrupt leaves [run]
    unless [browser.close()] raises in turn. *)
Theorem non_exception_not_reported st a e :
  In (EvCall a (Some e)) (events (run perform st)) ->
  In (SCall a) body_steps ->
  is_Exception e = false ->
  error_shots (events (run perform st)) = 0 /\
  (forall e', ~ In (EvPrint (error_line e')) (events (run perform st))) /\
  exists done rest rc,
    body_steps = done ++ SCall a :: rest /\
    skeleton (events (run perform st)) =
      map step_ok (setup_steps ++ done) ++ [EvCall a (Some e); EvCall BrowserClose rc] /\
    result (run perform st) = Raised (match rc with Some e' => e' | None => e end).
Proof.
  intros Hin Hbody Ex.
  destruct (failed_body_step_cases perform st a e Hin Hbody)
    as (done & rest & L & [(Ex' & _)|(_ & rc & S & R)]); [congruence|].
  assert (F : forall b x, In (EvCall b (Some x)) (events (run perform st)) ->
                          (b = a /\ x = e) \/ b = BrowserClose).
  { intros b x K. apply (proj2 (failed_call_in_skeleton _ _ _)) in K.
    rewrite S in K. apply in_app_or in K. destruct K as [K|[K|[K|[]]]].
    - exfalso. exact (failed_call_not_step_ok _ _ _ K).
    - injection K as <- <-. auto.
    - injection K as <- _. auto. }
  split; [|split].
  - destruct (error_screenshot_count_cases st) as [Z|(b & x & K & B & X)]; [exact Z|].
    exfalso. destruct (F b x K) as [[E1 E2]|E1]; subst; [congruence|].
    exact (close_not_in_body B).
  - intros e' He. apply (proj2 (print_in_skeleton _ _)) in He.
    destruct (run_shape_error_line _ _ e' (run_cases perform st) He)
      as (b & x & K & B & X).
    apply (proj1 (failed_call_in_skeleton _ _ _)) in K.
    destruct (F b x K) as [[E1 E2]|E1]; subst; [congruence|].
    exact (close_not_in_body B).
  - exists done, rest, rc. auto.
Qed.

(** X9: a run of the script is free of failed calls exactly when it exits
    with code 0 and has printed the success line.  Neither sign is enough
    alone: the exit code is also 0 after a handled step failure, and the
    success line is also printed when a clean-up raises afterwards. *)
Theorem pass_iff_exit_zero_and_success_line st :
  no_failure (events (main perform st)) = true <->
  exit_code (main perform st) = 0 /\
  In (EvPrint success_line) (events (main perform st)).
Proof.
  pose proof (main_shape_passed _ _ (main_cases perform st)) as H.
  rewrite no_failure_skeleton, print_in_skeleton in H. rewrite H.
  assert (E : exit_code (main perform st) = 0 <-> result (main perform st) = Returned tt).
  { unfold exit_code. destruct (result (main perform st)) as [[]|e].
    - tauto.
    - split; discriminate. }
  rewrite E. tauto.
Qed.

End MoreFacts.

(** * Further concrete runs *)

(** The relay at work: the page logs one line during each of the 62 calls
    of a passing run, and the 58 lines logged after the handler was
    registered are printed. *)
Lemma console_relay_starts_after_registration_witness :
  List.length (calls_of (events (run chatty start))) = 62 /\
  console_of (events (run chatty start)) = repeat "tick"%string 58.
Proof.
  split; [vm_compute; reflexivity|].
  rewrite (console_relay_starts_after_registration chatty start); [|reflexivity].
  vm_compute. reflexivity.
Defined.

(** A clean-up failure at work: every step passes, the success line is
    printed, [browser.close()] raises and its exception leaves [run]. *)
Lemma cleanup_exception_replaces_pending_witness :
  In (EvPrint success_line) (events (run (failing close_fails) start)) /\
  result (run (failing close_fails) start) = Raised target_closed.
Proof.
  split.
  - apply (nth_error_In _ 79). vm_compute. reflexivity.
  - apply (proj1 (cleanup_exception_replaces_pending (failing close_fails) start
                    target_closed)).
    apply (nth_error_In _ 80). vm_compute. reflexivity.
Defined.

(** The [with] block at work: the browser cannot be launched, and
    Playwright is stopped all the same. *)
Lemma playwright_stopped_on_every_path_witness :
  exists mid rx,
    skeleton (events (main (failing no_browser) start)) =
      EvCall SyncPlaywrightEnter None :: mid ++ [EvCall SyncPlaywrightExit rx] /\
    (forall x, ~ In (EvCall SyncPlaywrightExit x) mid) /\
    (forall e, rx = Some e -> result (main (failing no_browser) start) = Raised e).
Proof.
  apply (playwright_stopped_on_every_path (failing no_browser) start).
  intros e H. vm_compute in H. intuition discriminate.
Defined.

(** An interrupt at work: Ctrl-C during the first [time.sleep] of the
    stress loop. *)
Lemma non_exception_not_reported_witness :
  error_shots (events (run (failing interrupted) start)) = 0 /\
  (forall e', ~ In (EvPrint (error_line e')) (events (run (failing interrupted) start))) /\
  exists done rest rc,
    body_steps = done ++ SCall (TimeSleep 50) :: rest /\
    skeleton (events (run (failing interrupted) start)) =
      map step_ok (setup_steps ++ done) ++
      [EvCall (TimeSleep 50) (Some ctrl_c); EvCall BrowserClose rc] /\
    result (run (failing interrupted) start) =
      Raised (match rc with Some e' => e' | None => ctrl_c end).
Proof.
  apply (non_exception_not_reported (failing interrupted) start (TimeSleep 50) ctrl_c).
  - apply (nth_error_In _ 45). vm_compute. reflexivity.
  - apply (nth_error_In _ 41). vm_compute. reflexivity.
  - reflexivity.
Defined.

(** * Concrete runs on pages with state *)

(** C7 as stated fails for the starting state.  In a passing run the click
    test begins right after the assertion that the button is not
    "active", while the first Enter press follows a click whose
    post-state is not asserted, the last assertion before it being that
    the button matches "active".  On a page that swallows that click the
    whole scenario still passes, although the keyboard test starts with
    the accordion open and the click test started with it closed. *)
Lemma keyboard_test_start_not_asserted :
  no_failure (events (run always_ok start)) = true /\
  segment 0 2 (accordion_view (calls_of (events (run always_ok start)))) =
    [Expect proventos_accordion_btn (NotToHaveClass (Str "active"));
     Click proventos_accordion_btn] /\
  segment 10 13 (accordion_view (calls_of (events (run always_ok start)))) =
    [Expect proventos_accordion_btn (ToHaveClass (ReCompile "active"));
     Click proventos_accordion_btn;
     KeyboardPress "Enter"] /\
  no_failure (events (run sticky_accordion (mkSt (mkAccordion false 0 0) false))) = true /\
  nth_error (calls_of (events (run sticky_accordion (mkSt (mkAccordion false 0 0) false)))) 26 =
    Some (Click proventos_accordion_btn) /\
  acc_open (replay_calls sticky_accordion (mkAccordion false 0 0)
              (firstn 26 (calls_of (events (run sticky_accordion
                                              (mkSt (mkAccordion false 0 0) false)))))) = false /\
  nth_error (calls_of (events (run sticky_accordion (mkSt (mkAccordion false 0 0) false)))) 47 =
    Some (Focus proventos_accordion_btn) /\
  acc_open (replay_calls sticky_accordion (mkAccordion false 0 0)
              (firstn 47 (calls_of (events (run sticky_accordion
                                              (mkSt (mkAccordion false 0 0) false)))))) = true.
Proof. repeat split; vm_compute; reflexivity. Qed.

